(** * bHealth / digihealth: windowing, sampling frequency and label analytics

    A shallow embedding of [digihealth/metrics.py] and
    [digihealth/transforms.py].

    Numbers.  The Python code computes on NumPy [float64] scalars and
    arrays.  They are modelled by [num]: an exact rational or one of the
    three IEEE special values.  Division by zero, the propagation of
    infinities and NaN, and comparisons with NaN follow IEEE 754; rounding
    is not modelled and there is a single zero (the code never produces a
    negative zero as a divisor: every divisor is either a difference of
    two timestamps or a sum started from [0]).

    Errors.  A Python exception is the [Raise] branch of [result].

    Arrays.  Windows and backing sequences are NumPy arrays of one or two
    dimensions; labels are integer codes. *)

From Stdlib Require Import ZArith QArith Qabs Qround Lia Lqa List Bool Sorted.
From stdpp Require Import base list.
Import ListNotations.

Local Open Scope Z_scope.

(** ** Python exceptions *)

Inductive exn : Type :=
| IndexError
| ZeroDivisionError
| OverflowError
| ValueError.

Inductive result (A : Type) : Type :=
| Ok (a : A)
| Raise (e : exn).
Arguments Ok {A} a.
Arguments Raise {A} e.

Definition rbind {A B} (r : result A) (k : A -> result B) : result B :=
  match r with
  | Ok a => k a
  | Raise e => Raise e
  end.

Notation "'let*' x ':=' r 'in' k" := (rbind r (fun x => k))
  (at level 10, x name, r at level 100, k at level 200).

Definition of_option {A} (e : exn) (o : option A) : result A :=
  match o with
  | Some a => Ok a
  | None => Raise e
  end.

(** ** float64 values: exact rationals with the IEEE special values *)

Inductive num : Type :=
| Fin (q : Q)
| PInf
| NInf
| NaN.

Definition fin (q : Q) : num := Fin (Qred q).
Definition num_of_Z (z : Z) : num := Fin (inject_Z z).
Definition num_of_nat (n : nat) : num := num_of_Z (Z.of_nat n).

Definition Qis0 (q : Q) : bool := Qeq_bool q 0.
Definition Qltb (a b : Q) : bool := negb (Qle_bool b a).

Definition num_isnan (a : num) : bool :=
  match a with NaN => true | _ => false end.

Definition num_opp (a : num) : num :=
  match a with
  | Fin q => fin (- q)
  | PInf => NInf
  | NInf => PInf
  | NaN => NaN
  end.

Definition num_add (a b : num) : num :=
  match a, b with
  | NaN, _ | _, NaN => NaN
  | PInf, NInf | NInf, PInf => NaN
  | PInf, _ | _, PInf => PInf
  | NInf, _ | _, NInf => NInf
  | Fin x, Fin y => fin (x + y)
  end.

Definition num_sub (a b : num) : num := num_add a (num_opp b).

(** Sign of a value, zero counting as positive: [true] for negative. *)
Definition num_neg (a : num) : bool :=
  match a with
  | Fin q => Qltb q 0
  | NInf => true
  | _ => false
  end.

Definition inf_of_sign (negative : bool) : num :=
  if negative then NInf else PInf.

Definition num_mul (a b : num) : num :=
  match a, b with
  | NaN, _ | _, NaN => NaN
  | Fin x, Fin y => fin (x * y)
  | Fin x, _ => if Qis0 x then NaN else inf_of_sign (xorb (num_neg a) (num_neg b))
  | _, Fin y => if Qis0 y then NaN else inf_of_sign (xorb (num_neg a) (num_neg b))
  | _, _ => inf_of_sign (xorb (num_neg a) (num_neg b))
  end.

(** NumPy true division: [x/0] is an infinity (NaN for [0/0]), never an
    exception. *)
Definition num_div (a b : num) : num :=
  match a, b with
  | NaN, _ | _, NaN => NaN
  | Fin x, Fin y =>
      if Qis0 y then (if Qis0 x then NaN else inf_of_sign (num_neg a))
      else fin (x / y)
  | Fin _, _ => Fin 0
  | _, Fin _ => inf_of_sign (xorb (num_neg a) (num_neg b))
  | _, _ => NaN
  end.

Definition num_abs (a : num) : num :=
  match a with
  | Fin q => fin (Qabs q)
  | PInf | NInf => PInf
  | NaN => NaN
  end.

(** Comparisons; every comparison with NaN is false, except [!=]. *)
Definition num_ltb (a b : num) : bool :=
  match a, b with
  | NaN, _ | _, NaN => false
  | Fin x, Fin y => Qltb x y
  | NInf, NInf | PInf, _ => false
  | NInf, _ | _, PInf => true
  | _, NInf => false
  end.

Definition num_leb (a b : num) : bool :=
  match a, b with
  | NaN, _ | _, NaN => false
  | Fin x, Fin y => Qle_bool x y
  | NInf, _ | _, PInf => true
  | PInf, _ | _, NInf => false
  end.

Definition num_eqb (a b : num) : bool :=
  match a, b with
  | Fin x, Fin y => Qeq_bool x y
  | PInf, PInf | NInf, NInf => true
  | _, _ => false
  end.

Definition num_neb (a b : num) : bool := negb (num_eqb a b).

(** [np.floor], [np.ceil] *)
Definition num_floor (a : num) : num :=
  match a with
  | Fin q => num_of_Z (Qfloor q)
  | _ => a
  end.

Definition num_ceil (a : num) : num :=
  match a with
  | Fin q => num_of_Z (Qceiling q)
  | _ => a
  end.

(** [a % b] on floats: the remainder has the sign of the divisor. *)
Definition num_mod (a b : num) : num :=
  match a, b with
  | Fin x, Fin y =>
      if Qis0 y then NaN else fin (x - y * inject_Z (Qfloor (x / y)))
  | Fin x, PInf => if Qltb x 0 then PInf else a
  | Fin x, NInf => if Qltb 0 x then NInf else a
  | _, _ => NaN
  end.

(** [int(a)]: truncation toward zero; infinities and NaN raise. *)
Definition Qtrunc (q : Q) : Z := if Qltb q 0 then Qceiling q else Qfloor q.

Definition py_int (a : num) : result Z :=
  match a with
  | Fin q => Ok (Qtrunc q)
  | PInf | NInf => Raise OverflowError
  | NaN => Raise ValueError
  end.

(** The builtin [sum]: a left fold starting from [0]. *)
Definition num_sum (l : list num) : num := fold_left num_add l (Fin 0).

(** ** Arrays *)

(** A window or backing sequence: a 1-D array of values or a 2-D array of
    rows ([len(window.shape) > 1]). *)
Inductive ndarray : Type :=
| Vec (v : list num)
| Mat (rows : list (list num)).

Definition nd_len (a : ndarray) : nat :=
  match a with
  | Vec v => length v
  | Mat r => length r
  end.

(** Python's adjustment of one slice bound for a sequence of length [n]. *)
Definition py_adjust (n i : Z) : Z :=
  if i <? 0 then Z.max (i + n) 0 else Z.min i n.

(** [x[a:b]]: never raises, bounds are clamped, negative bounds count from
    the end. *)
Definition py_slice {A} (x : list A) (a b : Z) : list A :=
  let n := Z.of_nat (length x) in
  let lo := py_adjust n a in
  let hi := py_adjust n b in
  take (Z.to_nat (hi - lo)) (drop (Z.to_nat lo) x).

Definition nd_slice (x : ndarray) (a b : Z) : ndarray :=
  match x with
  | Vec v => Vec (py_slice v a b)
  | Mat r => Mat (py_slice r a b)
  end.

(** [window[~np.isnan(window)]] and
    [window[~np.isnan(window).any(axis=1)]] *)
Definition nd_dropna (w : ndarray) : ndarray :=
  match w with
  | Vec v => Vec (List.filter (fun a => negb (num_isnan a)) v)
  | Mat r => Mat (List.filter (fun row => negb (existsb num_isnan row)) r)
  end.

(** ** The window cursor shared by [Metrics] and [Transforms] *)

Record Slider : Type := mkSlider {
  window_length : Z;
  current_position : Z;
  window_overlap : Z
}.

Definition advance (s : Slider) : Slider :=
  {| window_length := window_length s;
     current_position := current_position s + window_overlap s;
     window_overlap := window_overlap s |}.

(** ** Index loops and array access *)

(** [range(a, b)] *)
Definition py_range (a b : nat) : list nat := seq a (b - a).

(** [for i in idxs: s = body(i, s)], stopping at the first exception. *)
Fixpoint for_loop {S} (idxs : list nat) (body : nat -> S -> result S) (s : S)
  : result S :=
  match idxs with
  | [] => Ok s
  | i :: rest => let* s' := body i s in for_loop rest body s'
  end.

(** [arr[i]] for a non-negative index. *)
Definition get {A} (arr : list A) (i : nat) : result A :=
  of_option IndexError (arr !! i).

(** [np.mean]: the sum over the count, NaN for an empty array. *)
Definition np_mean (l : list num) : num :=
  num_div (num_sum l) (num_of_nat (length l)).

(** [np.nanmean]: NaN entries are replaced by zero in the sum and left out
    of the count. *)
Definition np_nanmean (l : list num) : num :=
  let kept := List.filter (fun a => negb (num_isnan a)) l in
  num_div (num_sum (map (fun a => if num_isnan a then Fin 0 else a) l))
          (num_of_nat (length kept)).

(** [np.diff] of a 1-D array. *)
Fixpoint np_diff (l : list num) : list num :=
  match l with
  | a :: (b :: _) as tl => num_sub b a :: np_diff tl
  | _ => []
  end.

(** [np.delete(arr, idxs)] *)
Definition np_delete {A} (arr : list A) (idxs : list nat) : list A :=
  map snd (List.filter (fun p => negb (existsb (Nat.eqb (fst p)) idxs))
                       (combine (seq 0 (length arr)) arr)).

(** [np.isclose(a, b)] with the default [rtol=1e-5], [atol=1e-8]. *)
Definition rtol : Q := 1 # 100000.
Definition atol : Q := 1 # 100000000.

Definition np_isclose (a b : num) : bool :=
  match a, b with
  | Fin x, Fin y => Qle_bool (Qabs (x - y)) (atol + rtol * Qabs y)
  | PInf, PInf | NInf, NInf => true
  | _, _ => false
  end.

(** [np.unique]: the sorted distinct values. *)
Fixpoint insert_unique (z : Z) (l : list Z) : list Z :=
  match l with
  | [] => [z]
  | y :: tl =>
      if z <? y then z :: l
      else if z =? y then l
      else y :: insert_unique z tl
  end.

Definition np_unique (l : list Z) : list Z :=
  fold_right insert_unique [] l.

(** [np.where(arr == z)[0][0]]: the first position of [z]; indexing the
    empty result raises. *)
Fixpoint first_index (z : Z) (l : list Z) : option nat :=
  match l with
  | [] => None
  | y :: tl => if y =? z then Some O else option_map S (first_index z tl)
  end.

Definition where0 (arr : list Z) (z : Z) : result nat :=
  of_option IndexError (first_index z arr).

(** [np.zeros((r, c))] *)
Definition zeros2 (r c : nat) : list (list num) :=
  replicate r (replicate c (Fin 0)).

(** [arr[i, j] = v] on a 2-D array. *)
Definition set2 (arr : list (list num)) (i j : nat) (v : num)
  : result (list (list num)) :=
  let* row := get arr i in
  if (j <? length row)%nat then Ok (<[i := <[j := v]> row]> arr)
  else Raise IndexError.

(** [arr[-1]] *)
Definition get_last {A} (arr : list A) : result A :=
  of_option IndexError (last arr).

(** The counts returned by [np.unique(labels, return_counts=True)]: for
    each distinct value, the number of its occurrences. *)
Definition count_label (z : Z) (l : list Z) : nat :=
  length (List.filter (Z.eqb z) l).

Definition np_unique_counts (l : list Z) : list nat :=
  map (fun u => count_label u l) (np_unique l).

(** ** Python scalars

    A Python [int], a Python [float] or a NumPy [float64].  True division
    by zero raises for the first two and yields an infinity or NaN as soon
    as one operand is a NumPy scalar. *)

Inductive scalar : Type :=
| PyInt (z : Z)
| PyFloat (v : num)
| NpFloat (v : num).

Definition scalar_val (s : scalar) : num :=
  match s with
  | PyInt z => num_of_Z z
  | PyFloat v => v
  | NpFloat v => v
  end.

Definition py_add (a b : scalar) : scalar :=
  match a, b with
  | PyInt x, PyInt y => PyInt (x + y)
  | NpFloat _, _ | _, NpFloat _ => NpFloat (num_add (scalar_val a) (scalar_val b))
  | _, _ => PyFloat (num_add (scalar_val a) (scalar_val b))
  end.

Definition py_truediv (a b : scalar) : result scalar :=
  match a, b with
  | NpFloat _, _ | _, NpFloat _ =>
      Ok (NpFloat (num_div (scalar_val a) (scalar_val b)))
  | _, _ =>
      if num_eqb (scalar_val b) (Fin 0) then Raise ZeroDivisionError
      else Ok (PyFloat (num_div (scalar_val a) (scalar_val b)))
  end.

(** ** transforms.py *)

Module Transforms.

Definition init (window_length window_overlap : Z) : Slider :=
  mkSlider window_length 0 window_overlap.

(** One iteration of the loop of [zero_crossings]; the state is
    [(direction, count_zc)]. *)
Definition zc_step (sign : list nat) (xi : num) (st : nat * Z)
  : result (nat * Z) :=
  let '(direction, count_zc) := st in
  if (num_leb (Fin 0) xi && Nat.eqb direction 0)
     || (num_ltb xi (Fin 0) && Nat.eqb direction 1)
  then let* d := get sign direction in Ok (d, count_zc + 1)
  else Ok st.

Definition zero_crossings (x : list num) : result Z :=
  let sign := [1%nat; 0%nat] in
  let direction := 0%nat in
  let count_zc := 0 in
  let* x0 := get x 0 in
  let direction := if num_leb (Fin 0) x0 then 1%nat else direction in
  let* st :=
    for_loop (py_range 0 (length x))
      (fun i st => let* xi := get x i in zc_step sign xi st)
      (direction, count_zc) in
  Ok (snd st).

Definition mean_crossings (x : list num) : result Z :=
  let m := np_mean x in
  let x := map (fun a => num_sub a m) x in
  zero_crossings x.

(** The builtins [min] and [max] over an iterable: [ValueError] when it is
    empty, otherwise a scan keeping the first extreme element. *)
Definition py_min (l : list num) : result num :=
  match l with
  | [] => Raise ValueError
  | a :: tl => Ok (fold_left (fun m e => if num_ltb e m then e else m) tl a)
  end.

Definition py_max (l : list num) : result num :=
  match l with
  | [] => Raise ValueError
  | a :: tl => Ok (fold_left (fun m e => if num_ltb m e then e else m) tl a)
  end.

(** Lines 116-119 of [spec_entropy]: the magnitudes divided by their sum,
    the sum being replaced by [1] when it is zero. *)
Definition normalise_spectrum (F : list num) : list num :=
  let sumf := num_sum F in
  let sumf := if num_eqb sumf (Fin 0) then Fin 1 else sumf in
  map (fun m => num_div m sumf) F.

(** Lines 120-122 of [spec_entropy]: the additive epsilon [min_nf]. *)
Definition min_nf (nf : list num) : result num :=
  let* lo := py_min nf in
  let* hi := py_max nf in
  if num_neb lo hi && num_neb lo (Fin 0)
  then py_min (List.filter (fun m => num_ltb (Fin 0) m) nf)
  else Ok (Fin 1).

Section SpecEntropy.

(** [fft_abs x] stands for [abs(np.fft.fft(x))], which raises [ValueError]
    on an empty window, and [np_log] for [np.log]. *)
Variable fft_abs : list num -> result (list num).
Variable np_log : num -> num.

Definition spec_entropy (x : list num) : result num :=
  let* F := fft_abs x in
  let nf := normalise_spectrum F in
  let* eps := min_nf nf in
  let logf := map (fun p => np_log (num_add p eps)) nf in
  Ok (num_mul (Fin (-1)) (num_sum (zip_with num_mul nf logf))).

End SpecEntropy.

(** [Transforms.slide]: the returned pair is the window and the state of
    the instance after the call. *)
Definition slide (self : Slider) (x : ndarray) (update : bool)
  : ndarray * Slider :=
  let window :=
    nd_slice x (current_position self - window_length self)
               (current_position self) in
  let window :=
    if (0 <? nd_len window)%nat then nd_dropna window else window in
  let self := if update then advance self else self in
  (window, self).

Section SpecEnergy.

(** [fft_abs x] stands for [abs(np.fft.fft(x))]. *)
Variable fft_abs : list num -> result (list num).

Definition spec_energy (x : list num) : result num :=
  let* F := fft_abs x in
  Ok (num_sum (map (fun m => num_mul m m) F)).

End SpecEnergy.

End Transforms.

(** ** metrics.py *)

Module Metrics.

(** The accumulation loop of lines 151-154 (and 108-111): the deltas below
    the threshold are added to [sampling_frequency], which starts as the
    Python integer [0]. *)
Definition threshold : num := Fin 100.

Definition accumulate_step (timestamps_ : list num) (idx : nat)
    (sampling_frequency : scalar) : result scalar :=
  let* cur := get timestamps_ idx in
  let* prev := get timestamps_ (idx - 1) in
  if num_ltb (num_sub cur prev) threshold
  then Ok (py_add sampling_frequency (NpFloat (num_sub cur prev)))
  else Ok sampling_frequency.

Definition establish_sampling_frequency (timestamps : list num)
  : result scalar :=
  let timestamps_ := timestamps in
  let sampling_frequency := PyInt 0 in
  let* sampling_frequency :=
    for_loop (py_range 1 (length timestamps_))
             (accumulate_step timestamps_) sampling_frequency in
  let* sampling_frequency :=
    py_truediv sampling_frequency (PyInt (Z.of_nat (length timestamps_))) in
  let* sampling_frequency := py_truediv (PyInt 1) sampling_frequency in
  Ok sampling_frequency.

(** [Metrics.__init__] *)
Definition init (timestamps : list num) (aggregation_duration : scalar)
    (window_overlap : Z) : result Slider :=
  let* sampling_frequency := establish_sampling_frequency timestamps in
  let* indexing :=
    py_truediv aggregation_duration
               (NpFloat (num_floor (scalar_val sampling_frequency))) in
  let indexing := scalar_val indexing in
  let indexing :=
    if num_neb (num_mod indexing (Fin 2)) (Fin 0)
    then num_ceil indexing else indexing in
  let* wl := py_int indexing in
  Ok (mkSlider wl 0 window_overlap).

(** [adjacency[i, j]] on a 2-D array. *)
Definition get2 (adjacency : list (list num)) (i j : nat) : result num :=
  let* row := get adjacency i in get row j.

(** The body of the loop of [speed]; the state is
    [(label_change_array, label_time_array)]. *)
Definition speed_step (unique_lab labels_ : list Z)
    (adjacency : list (list num)) (timestamps : list num) (idx : nat)
    (st : list num * list num) : result (list num * list num) :=
  let '(label_change_array, label_time_array) := st in
  let* prev := get labels_ (idx - 1) in
  let* i := where0 unique_lab prev in
  let* cur := get labels_ idx in
  let* j := where0 unique_lab cur in
  let* a := get2 adjacency i j in
  let* old := get label_change_array idx in
  let label_change_array := <[idx := num_add old a]> label_change_array in
  let* t1 := get timestamps (idx - 1) in
  let* t0 := get timestamps idx in
  let* old := get label_time_array idx in
  let label_time_array :=
    <[idx := num_add old (num_sub t1 t0)]> label_time_array in
  Ok (label_change_array, label_time_array).

Definition speed (labels : list Z) (timestamps : list num)
    (adjacency : list (list num)) : result num :=
  let unique_lab := np_unique labels in
  let labels_ := labels in
  let label_change_array := replicate (length labels) (Fin 0) in
  let label_time_array := replicate (length labels) (Fin 0) in
  let* st :=
    for_loop (py_range 1 (length labels_))
             (speed_step unique_lab labels_ adjacency timestamps)
             (label_change_array, label_time_array) in
  let distances := zip_with num_div (fst st) (snd st) in
  let speed := num_abs (np_nanmean distances) in
  Ok speed.

(** Lines 127-129: the timestamps of the samples carrying
    [lab_instance_outer]. *)
Definition collect_step (labels_ : list Z) (timestamps_ : list num)
    (lab_instance_outer : Z) (idx : nat) (inter_label_times : list num)
  : result (list num) :=
  let* l := get labels_ idx in
  if l =? lab_instance_outer
  then let* t := get timestamps_ idx in Ok (inter_label_times ++ [t])
  else Ok inter_label_times.

(** Lines 134-137: the positions of the gaps close to
    [1/sampling_frequency]. *)
Definition deletion_step (sampling_frequency : scalar)
    (inter_label_times : list num) (idx : nat) (deletion_array : list nat)
  : result (list nat) :=
  let* time := get inter_label_times idx in
  let* interval := py_truediv (PyInt 1) sampling_frequency in
  if np_isclose time (scalar_val interval)
  then Ok (deletion_array ++ [idx])
  else Ok deletion_array.

(** The body of the outer loop, lines 126-144. *)
Definition label_step (labels_ : list Z) (timestamps_ : list num)
    (normalise : bool) (sampling_frequency : scalar) (idx_outer : nat)
    (average_per_label : list num) : result (list num) :=
  let* lab_instance_outer := get labels_ idx_outer in
  let* inter_label_times :=
    for_loop (py_range 0 (length labels_))
             (collect_step labels_ timestamps_ lab_instance_outer) [] in
  let inter_label_times := np_diff inter_label_times in
  let* inter_label_times :=
    if normalise then
      let* deletion_array :=
        for_loop (py_range 0 (length inter_label_times))
                 (deletion_step sampling_frequency inter_label_times) [] in
      Ok (np_delete inter_label_times deletion_array)
    else Ok inter_label_times in
  if Nat.eqb (length inter_label_times) 0
  then Ok (<[idx_outer := Fin 0]> average_per_label)
  else Ok (<[idx_outer := np_mean inter_label_times]> average_per_label).

(** [average_time_between_labels]; its lines 107-115 are the body of
    [establish_sampling_frequency] once more. *)
Definition average_time_between_labels (labels : list Z)
    (timestamps : list num) (normalise : bool) : result (list num) :=
  let unique_lab := np_unique labels in
  let* sampling_frequency := establish_sampling_frequency timestamps in
  let labels_ := labels in
  let number_of_labels := length unique_lab in
  let average_per_label := replicate number_of_labels (Fin 0) in
  for_loop (py_range 0 number_of_labels)
           (label_step labels_ timestamps normalise sampling_frequency)
           average_per_label.

(** [Metrics.slide] *)
Definition slide (self : Slider) (index : ndarray) (update : bool)
  : ndarray * Slider :=
  let window :=
    nd_slice index (current_position self - window_length self)
                   (current_position self) in
  let window :=
    if (0 <? nd_len window)%nat then nd_dropna window else window in
  let self := if update then advance self else self in
  (window, self).

(** The body of the loop of [average_labels_per_window], over
    [enumerate(zip(unique_lab, counts_lab))]. *)
Definition proportion_step (unique_lab : list Z) (counts_lab : list nat)
    (number_of_instances : nat) (idx : nat)
    (label_occurrence_array : list (list num)) : result (list (list num)) :=
  let* lab := get unique_lab idx in
  let* count := get counts_lab idx in
  let prop :=
    num_div (num_of_nat count) (num_of_nat number_of_instances) in
  let* label_occurrence_array :=
    set2 label_occurrence_array idx 0 (num_of_Z lab) in
  set2 label_occurrence_array idx 1 prop.

Definition average_labels_per_window (labels : list Z)
    (timestamps : list num) : result (list (list num)) :=
  let unique_lab := np_unique labels in
  let counts_lab := np_unique_counts labels in
  let number_of_instances := length labels in
  let number_of_labels := length unique_lab in
  let label_occurrence_array := zeros2 number_of_labels 2 in
  for_loop (py_range 0 (Nat.min (length unique_lab) (length counts_lab)))
           (proportion_step unique_lab counts_lab number_of_instances)
           label_occurrence_array.

(** The body of the loop of [duration_of_labels_per_window]. *)
Definition duration_step (unique_lab : list Z) (counts_lab : list nat)
    (number_of_instances : nat) (total_time_in_window : num) (idx : nat)
    (label_time_array : list (list num)) : result (list (list num)) :=
  let* lab := get unique_lab idx in
  let* count := get counts_lab idx in
  let prop :=
    num_div (num_of_nat count) (num_of_nat number_of_instances) in
  let time_prop := num_mul prop total_time_in_window in
  let* label_time_array := set2 label_time_array idx 0 (num_of_Z lab) in
  set2 label_time_array idx 1 time_prop.

Definition duration_of_labels_per_window (labels : list Z)
    (timestamps : list num) : result (list (list num)) :=
  let unique_lab := np_unique labels in
  let counts_lab := np_unique_counts labels in
  let number_of_instances := length labels in
  let number_of_labels := length unique_lab in
  let* last := get_last timestamps in
  let* first := get timestamps 0 in
  let total_time_in_window := num_sub last first in
  let label_time_array := zeros2 number_of_labels 2 in
  for_loop (py_range 0 (Nat.min (length unique_lab) (length counts_lab)))
           (duration_step unique_lab counts_lab number_of_instances
                          total_time_in_window)
           label_time_array.

(** The body of the loop of [number_of_label_changes_per_window]. *)
Definition change_step (unique_lab labels_ : list Z) (idx : nat)
    (label_change_array : list (list num)) : result (list (list num)) :=
  let* prev := get labels_ (idx - 1) in
  let* i := where0 unique_lab prev in
  let* cur := get labels_ idx in
  let* j := where0 unique_lab cur in
  let* old := get2 label_change_array i j in
  set2 label_change_array i j (num_add old (Fin 1)).

Definition number_of_label_changes_per_window (labels : list Z)
    (timestamps : list num) : result (list (list num)) :=
  let unique_lab := np_unique labels in
  let labels_ := labels in
  let label_change_array :=
    zeros2 (length unique_lab) (length unique_lab) in
  for_loop (py_range 1 (length labels_))
           (change_step unique_lab labels_) label_change_array.

End Metrics.

(** Integer-valued inputs. *)
Definition nums (l : list Z) : list num := map num_of_Z l.

(** * Specifications

    The statements of the documentation, as predicates and functions over
    the definitions above. *)

(** ** The window slider *)

(** Documented behaviour (C3): before the cursor reaches the window length
    the window is empty. *)
Definition slide_empty_before_first_window
    (s : Slider) (x : ndarray) (u : bool) : Prop :=
  0 <= current_position s < window_length s ->
  nd_len (fst (Transforms.slide s x u)) = 0%nat
  /\ nd_len (fst (Metrics.slide s x u)) = 0%nat.

(** Successive calls [slide(x_1), slide(x_2), ...] with [update=True] on
    one instance: the windows returned, and the final state. *)
Fixpoint slides (slide : Slider -> ndarray -> bool -> ndarray * Slider)
    (s : Slider) (xs : list ndarray) : list ndarray * Slider :=
  match xs with
  | [] => ([], s)
  | x :: rest =>
      let '(w, s1) := slide s x true in
      let '(ws, s2) := slides slide s1 rest in
      (w :: ws, s2)
  end.

(** The slider [s] moved to position [p]. *)
Definition at_position (s : Slider) (p : Z) : Slider :=
  mkSlider (window_length s) p (window_overlap s).

(** Documented invariant (C9): with [O <= L] a call with [update=True]
    does not move the cursor backwards. *)
Definition slide_never_moves_backwards (s : Slider) (x : ndarray) : Prop :=
  window_overlap s <= window_length s ->
  current_position s
  <= current_position (snd (Transforms.slide s x true)).

(** [n] successive calls with [update=False]: the state after them. *)
Definition peeks (slide : Slider -> ndarray -> bool -> ndarray * Slider)
    (x : ndarray) (n : nat) (s : Slider) : Slider :=
  Nat.iter n (fun st => snd (slide st x false)) s.

(** ** The sampling-frequency estimator *)

(** The successive deltas below the threshold. *)
Definition small_deltas (timestamps : list num) : list num :=
  List.filter (fun d => num_ltb d Metrics.threshold) (np_diff timestamps).

(** What the estimator is said to return: the reciprocal of the sum of the
    small deltas over the number of timestamps. *)
Definition reciprocal_mean_delta (timestamps : list num) : num :=
  num_div (Fin 1)
          (num_div (num_sum (small_deltas timestamps))
                   (num_of_nat (length timestamps))).

(** [r] is a normal return of a scalar of value [v]. *)
Definition returns (r : result scalar) (v : num) : Prop :=
  exists s, r = Ok s /\ scalar_val s = v.

Definition add_if_small (acc : scalar) (d : num) : scalar :=
  if num_ltb d Metrics.threshold then py_add acc (NpFloat d) else acc.

(** Documented behaviour (C6): the estimator returns that reciprocal. *)
Definition estimator_returns_reciprocal (timestamps : list num) : Prop :=
  returns (Metrics.establish_sampling_frequency timestamps)
          (reciprocal_mean_delta timestamps).

(** Documented behaviour (C7): when every delta is at least the threshold
    the estimator returns the frequency 0. *)
Definition estimator_zero_when_all_gaps_large (timestamps : list num)
  : Prop :=
  (forall d, In d (np_diff timestamps) ->
             num_leb Metrics.threshold d = true) ->
  returns (Metrics.establish_sampling_frequency timestamps) (Fin 0).

(** ** Window length derivation *)

(** [r] is evenly divisible by 2. *)
Definition even_integer (r : Q) : Prop :=
  exists k : Z, (r == inject_Z (2 * k))%Q.

(** [d / floor(f)] for a finite duration [d]; a finite number over an
    infinity is zero. *)
Definition duration_ratio (d : Q) (f : num) : Q :=
  match f with
  | Fin q => (d / inject_Z (Qfloor q))%Q
  | _ => 0%Q
  end.

(** The window length the derivation is said to produce. *)
Definition derived_length (wl : Z) (r : Q) : Prop :=
  (even_integer r -> wl = Qfloor r)
  /\ (~ even_integer r -> wl = Qceiling r).

(** Documented behaviour (C8): a strictly positive estimated frequency
    yields that window length. *)
Definition window_length_for_positive_frequency
    (timestamps : list num) (aggregation_duration : scalar) (d : Q)
    (window_overlap : Z) : Prop :=
  forall f,
    Metrics.establish_sampling_frequency timestamps = Ok f ->
    num_ltb (Fin 0) (scalar_val f) = true ->
    scalar_val aggregation_duration = Fin d ->
    exists s,
      Metrics.init timestamps aggregation_duration window_overlap = Ok s
      /\ derived_length (window_length s) (duration_ratio d (scalar_val f)).

(** ** Crossing counts on degenerate windows *)

(** Documented behaviour (C4): both functions return a count. *)
Definition crossings_return (x : list num) : Prop :=
  (exists n, Transforms.zero_crossings x = Ok n)
  /\ (exists n, Transforms.mean_crossings x = Ok n).

(** ** Spectral entropy *)

(** A magnitude: a finite non-negative number. *)
Definition magnitude (m : num) : Prop :=
  exists q, m = Fin q /\ (0 <= q)%Q.




(** [-Σ p·log(p + eps)] over the entries of [nf]. *)
Definition entropy_sum (np_log : num -> num) (eps : num) (nf : list num)
  : num :=
  num_mul (Fin (-1))
          (num_sum (map (fun p => num_mul p (np_log (num_add p eps))) nf)).

(** The scans of [min] and [max]. *)
Definition keep_min (m e : num) : num := if num_ltb e m then e else m.
Definition keep_max (m e : num) : num := if num_ltb m e then e else m.


(** ** Speed *)

(** The consecutive pairs of a sequence. *)
Fixpoint pairs {A} (l : list A) : list (A * A) :=
  match l with
  | a :: (b :: _) as tl => (a, b) :: pairs tl
  | _ => []
  end.

(** The adjacency weight of a (previous-label, current-label) pair: the
    entry at the ranks of the two labels among the sorted distinct labels
    of the window. *)
Definition pair_weight (adjacency : list (list num)) (unique_lab : list Z)
    (prev cur : Z) : result num :=
  let* i := where0 unique_lab prev in
  let* j := where0 unique_lab cur in
  Metrics.get2 adjacency i j.

Definition weight_of (adjacency : list (list num)) (unique_lab : list Z)
    (p : Z * Z) : num :=
  match pair_weight adjacency unique_lab (fst p) (snd p) with
  | Ok w => w
  | Raise _ => NaN
  end.

(** The adjacency matrix covers every observed pair of labels. *)
Definition covers (adjacency : list (list num)) (unique_lab : list Z)
    (labels : list Z) : Prop :=
  Forall (fun p => exists w,
            pair_weight adjacency unique_lab (fst p) (snd p) = Ok w)
         (pairs labels).

(** The signed time delta of a pair: previous minus current. *)
Definition gap_of (p : num * num) : num := num_sub (fst p) (snd p).

(** One ratio per consecutive pair of samples. *)
Definition ratios (adjacency : list (list num)) (labels : list Z)
    (timestamps : list num) : list num :=
  zip_with num_div
    (map (weight_of adjacency (np_unique labels)) (pairs labels))
    (map gap_of (pairs timestamps)).

Definition num_isfinite (a : num) : bool :=
  match a with Fin _ => true | _ => false end.

(** The average of the absolute values of the finite entries. *)
Definition mean_abs_finite (l : list num) : num :=
  np_mean (map num_abs (List.filter num_isfinite l)).

(** The adjacency weight of a pair of labels: the entry of the matrix at
    the two labels, which are its row and column numbers. *)
Definition label_entry (adjacency : list (list num)) (prev cur : Z)
  : option num :=
  if (0 <=? prev) && (0 <=? cur)
  then match adjacency !! Z.to_nat prev with
       | Some row => row !! Z.to_nat cur
       | None => None
       end
  else None.

Definition label_weight (adjacency : list (list num)) (p : Z * Z) : num :=
  match label_entry adjacency (fst p) (snd p) with
  | Some w => w
  | None => NaN
  end.

(** The adjacency matrix has an entry for every observed pair of labels. *)
Definition covers_labels (adjacency : list (list num)) (labels : list Z)
  : Prop :=
  Forall (fun p => exists w,
            label_entry adjacency (fst p) (snd p) = Some w)
         (pairs labels).

(** One ratio per consecutive pair of samples: the weight of the pair of
    labels over the signed time delta. *)
Definition label_ratios (adjacency : list (list num)) (labels : list Z)
    (timestamps : list num) : list num :=
  zip_with num_div (map (label_weight adjacency) (pairs labels))
                   (map gap_of (pairs timestamps)).

(** The distinct labels of the window are exactly [0, 1, ..., k-1]. *)
Definition dense_labels (labels : list Z) : Prop :=
  np_unique labels = map Z.of_nat (seq 0 (length (np_unique labels))).

(** Documented behaviour (C1): the result is the average of the absolute
    values of the finite ratios of pair weight over time delta. *)
Definition speed_is_mean_abs_finite (labels : list Z)
    (timestamps : list num) (adjacency : list (list num)) : Prop :=
  length timestamps = length labels ->
  covers_labels adjacency labels ->
  Metrics.speed labels timestamps adjacency
  = Ok (mean_abs_finite (label_ratios adjacency labels timestamps)).

(** ** Average time between labels *)

(** The timestamps of the occurrences of [lab] in the full sequence. *)
Fixpoint occurrences (labels : list Z) (timestamps : list num) (lab : Z)
  : list num :=
  match labels, timestamps with
  | l :: ls, t :: rest =>
      if l =? lab then t :: occurrences ls rest lab
      else occurrences ls rest lab
  | _, _ => []
  end.

(** The average the documentation describes for one label: the mean of the
    consecutive gaps between its occurrences, the gaps close to the nominal
    interval being left out when [normalise] is set, and 0 when no gap is
    left. *)
Definition label_average (labels : list Z) (timestamps : list num)
    (normalise : bool) (interval : num) (lab : Z) : num :=
  let gaps := np_diff (occurrences labels timestamps lab) in
  let gaps :=
    if normalise
    then List.filter (fun g => negb (np_isclose g interval)) gaps
    else gaps in
  match gaps with
  | [] => Fin 0
  | _ => np_mean gaps
  end.

(** One entry per distinct label, in the order of [np.unique]. *)
Definition averages_per_distinct_label (labels : list Z)
    (timestamps : list num) (normalise : bool) : list num :=
  let interval := num_div (Fin 1) (reciprocal_mean_delta timestamps) in
  map (label_average labels timestamps normalise interval)
      (np_unique labels).

(** The positions of the entries satisfying [P], counted from [start]. *)
Fixpoint positions (P : num -> bool) (start : nat) (l : list num)
  : list nat :=
  match l with
  | [] => []
  | g :: rest =>
      if P g then start :: positions P (S start) rest
      else positions P (S start) rest
  end.

(** ** Windows *)

(** A window without missing entries: no NaN in a 1-D window, no row with
    a NaN in a 2-D one. *)
Definition nd_complete (w : ndarray) : Prop :=
  match w with
  | Vec v => Forall (fun a => num_isnan a = false) v
  | Mat r => Forall (fun row => existsb num_isnan row = false) r
  end.

(** The entries of a 1-D window. *)
Definition vec_of (w : ndarray) : list num :=
  match w with
  | Vec v => v
  | Mat _ => []
  end.

(** The values that are not NaN. *)
Definition dropna (v : list num) : list num :=
  List.filter (fun a => negb (num_isnan a)) v.

(** ** Values *)

(** [a] is the finite number [q], whatever its representation. *)
Definition has_value (a : num) (q : Q) : Prop :=
  exists q', a = Fin q' /\ (q' == q)%Q.

(** [n] timestamps starting at [t0], one every [h] time-units. *)
Definition regular_from (t0 h : Q) (i n : nat) : list num :=
  map (fun j => Fin (t0 + inject_Z (Z.of_nat j) * h)) (seq i n).

Definition regular (t0 h : Q) (n : nat) : list num := regular_from t0 h 0 n.

(** ** Sign changes *)

(** The side of zero a value lies on: [true] for [>= 0]. *)
Definition nonneg (a : num) : bool := num_leb (Fin 0) a.

(** Two successive values on different sides of zero. *)
Definition sign_change (p : num * num) : bool :=
  xorb (nonneg (fst p)) (nonneg (snd p)).

(** The number of sign changes met when scanning [l] from the side [b]. *)
Fixpoint crossings_from (b : bool) (l : list num) : nat :=
  match l with
  | [] => O
  | a :: rest =>
      if Bool.eqb (nonneg a) b then crossings_from b rest
      else S (crossings_from (nonneg a) rest)
  end.

(** The value of [direction] for a side of zero. *)
Definition direction_of (b : bool) : nat := if b then 1%nat else 0%nat.

(** ** Label tables *)

(** The row of [average_labels_per_window] for one label. *)
Definition proportion_row (labels : list Z) (u : Z) : list num :=
  [num_of_Z u;
   num_div (num_of_nat (count_label u labels)) (num_of_nat (length labels))].

(** The row of [duration_of_labels_per_window] for one label. *)
Definition duration_row (labels : list Z) (span : num) (u : Z) : list num :=
  [num_of_Z u;
   num_mul (num_div (num_of_nat (count_label u labels))
                    (num_of_nat (length labels))) span].

(** The second column of a table. *)
Definition column1 (table : list (list num)) : list num :=
  map (fun row => nth 1 row NaN) table.

(** The number of occurrences of the transition [u -> v] among pairs. *)
Definition count_pair (u v : Z) (ps : list (Z * Z)) : nat :=
  length (List.filter (fun p => (fst p =? u) && (snd p =? v)) ps).

(** The transition-count matrix over the labels [U]. *)
Definition transition_matrix (U : list Z) (ps : list (Z * Z))
  : list (list num) :=
  map (fun u => map (fun v => num_of_nat (count_pair u v ps)) U) U.

(** ** Sums of values *)

(** The sum of the finite entries of a list, as a rational. *)
Definition values_sum (l : list num) : Q :=
  fold_right (fun m acc => match m with Fin q => (q + acc)%Q | _ => acc end)
             0%Q l.

(** Successive timestamps are finite and pairwise different. *)
Definition distinct_successive (timestamps : list num) : Prop :=
  Forall (fun p => exists x y,
            fst p = Fin x /\ snd p = Fin y /\ ~ (x == y)%Q)
         (pairs timestamps).

(** * Properties *)

(** ** The window slider *)

Lemma Metrics_slide_eq : Metrics.slide = Transforms.slide.
Proof. reflexivity. Qed.

Lemma slide_state (s : Slider) (x : ndarray) (u : bool) :
  snd (Transforms.slide s x u) = if u then advance s else s.
Proof. reflexivity. Qed.

Lemma slide_window_indep (s : Slider) (x : ndarray) (u v : bool) :
  fst (Transforms.slide s x u) = fst (Transforms.slide s x v).
Proof. reflexivity. Qed.

Lemma py_slice_nil {A} (x : list A) (a b : Z) :
  py_adjust (Z.of_nat (length x)) b <= py_adjust (Z.of_nat (length x)) a ->
  py_slice x a b = [].
Proof.
  intros H. unfold py_slice. cbv zeta.
  replace (Z.to_nat _) with 0%nat by lia. reflexivity.
Qed.

Lemma nd_len_slice_nil (x : ndarray) (a b : Z) :
  py_adjust (Z.of_nat (nd_len x)) b <= py_adjust (Z.of_nat (nd_len x)) a ->
  nd_len (nd_slice x a b) = 0%nat.
Proof.
  destruct x; cbn [nd_len nd_slice]; intros H;
    rewrite py_slice_nil by exact H; reflexivity.
Qed.

(** C3, as stated, fails: with [window_length = 4] and
    [current_position = 2] over the three-element sequence [[1, 2, 3]] the
    slice is [x[-2:2] = x[1:2] = [2]], which is not empty. *)
Lemma slide_short_sequence_not_empty :
  ~ slide_empty_before_first_window
      (mkSlider 4 2 1) (Vec (nums [1; 2; 3])) true.
Proof.
  unfold slide_empty_before_first_window. intros H.
  assert (Hc : 0 <= 2 < 4) by lia.
  destruct (H Hc) as [H1 _]. vm_compute in H1. discriminate H1.
Qed.

(** C3 (amended): when the backing sequence has at least [window_length]
    elements and [0 <= current_position < window_length], [slide] returns
    an empty window (and, being a total function, raises nothing), in both
    classes and for both values of [update]. *)
Theorem slide_empty_when_sequence_long_enough
    (s : Slider) (x : ndarray) (u : bool) :
  window_length s <= Z.of_nat (nd_len x) ->
  0 <= current_position s < window_length s ->
  nd_len (fst (Transforms.slide s x u)) = 0%nat
  /\ nd_len (fst (Metrics.slide s x u)) = 0%nat.
Proof.
  intros Hlen Hpos. rewrite Metrics_slide_eq.
  assert (E : nd_len (nd_slice x (current_position s - window_length s)
                               (current_position s)) = 0%nat).
  { apply nd_len_slice_nil. unfold py_adjust.
    destruct (Z.ltb_spec (current_position s) 0);
      destruct (Z.ltb_spec (current_position s - window_length s) 0); lia. }
  unfold Transforms.slide. cbv zeta. cbn [fst]. rewrite E. cbn.
  split; exact E.
Qed.

Lemma slide_empty_when_sequence_long_enough_witness :
  nd_len (fst (Transforms.slide (mkSlider 4 2 1)
                                (Vec (nums [1; 2; 3; 4; 5])) true)) = 0%nat
  /\ nd_len (fst (Metrics.slide (mkSlider 4 2 1)
                                (Vec (nums [1; 2; 3; 4; 5])) true)) = 0%nat.
Proof.
  apply (slide_empty_when_sequence_long_enough
           (mkSlider 4 2 1) (Vec (nums [1; 2; 3; 4; 5])) true).
  - vm_compute. discriminate.
  - cbn. lia.
Defined.

Lemma at_position_start (s : Slider) :
  at_position s (current_position s + Z.of_nat 0 * window_overlap s) = s.
Proof.
  destruct s; unfold at_position; cbn [window_length current_position
    window_overlap]. f_equal. lia.
Qed.

Lemma at_position_advance (s : Slider) (k : nat) :
  at_position (advance s)
    (current_position (advance s)
     + Z.of_nat k * window_overlap (advance s))
  = at_position s (current_position s + Z.of_nat (S k) * window_overlap s).
Proof.
  destruct s; unfold at_position, advance; cbn [window_length
    current_position window_overlap]. f_equal. lia.
Qed.

Lemma slides_spec (s : Slider) (xs : list ndarray) :
  snd (slides Transforms.slide s xs)
  = at_position s (current_position s
                   + Z.of_nat (length xs) * window_overlap s)
  /\ forall k x, xs !! k = Some x ->
       fst (slides Transforms.slide s xs) !! k
       = Some (fst (Transforms.slide
                      (at_position s (current_position s
                                      + Z.of_nat k * window_overlap s))
                      x false)).
Proof.
  revert s. induction xs as [|x xs IH]; intros s.
  - split.
    + symmetry. apply at_position_start.
    + intros k y Hk. discriminate Hk.
  - cbn [slides]. destruct (Transforms.slide s x true) as [w s1] eqn:E.
    assert (Es1 : s1 = advance s) by (pose proof (slide_state s x true) as H;
      rewrite E in H; exact H).
    assert (Ew : w = fst (Transforms.slide s x false))
      by (rewrite (slide_window_indep s x false true), E; reflexivity).
    destruct (slides Transforms.slide s1 xs) as [ws s2] eqn:E2.
    specialize (IH s1). rewrite E2 in IH. destruct IH as [IH1 IH2].
    cbn [fst snd] in *. subst s1. split.
    + rewrite IH1. apply (at_position_advance s (length xs)).
    + intros [|k] y Hk.
      * injection Hk as <-. rewrite at_position_start, Ew. reflexivity.
      * change ((w :: ws) !! S k) with (ws !! k).
        change ((x :: xs) !! S k) with (xs !! k) in Hk.
        rewrite (IH2 k y Hk), at_position_advance. reflexivity.
Qed.

(** C9, as stated, fails: an overlap of [-1] satisfies [O <= L] for
    [L = 4], and one call moves the cursor from [0] to [-1]. *)
Lemma slide_negative_overlap_moves_backwards :
  ~ slide_never_moves_backwards (mkSlider 4 0 (-1)) (Vec (nums [1; 2; 3])).
Proof.
  unfold slide_never_moves_backwards. cbn. lia.
Qed.

(** C9 (amended): for a slider with window length [L] and overlap [O],
    [0 <= O <= L], a run of calls [slide(update=True)] leaves
    [window_length] and [window_overlap] unchanged, moves
    [current_position] forward by exactly [O] per call, so that it never
    decreases, and the window returned by call number [k] is the one of the
    position before that call advanced it. *)
Theorem slide_update_advances_by_overlap (s : Slider) (xs : list ndarray) :
  0 <= window_overlap s ->
  window_overlap s <= window_length s ->
  let s' := snd (slides Transforms.slide s xs) in
  slides Metrics.slide s xs = slides Transforms.slide s xs
  /\ window_length s' = window_length s
  /\ window_overlap s' = window_overlap s
  /\ current_position s'
     = current_position s + Z.of_nat (length xs) * window_overlap s
  /\ current_position s <= current_position s'
  /\ forall k x, xs !! k = Some x ->
       fst (slides Transforms.slide s xs) !! k
       = Some (fst (Transforms.slide
                      (at_position s (current_position s
                                      + Z.of_nat k * window_overlap s))
                      x false)).
Proof.
  intros H0 HL s'. subst s'.
  destruct (slides_spec s xs) as [E W]. rewrite E. cbn.
  repeat split; try reflexivity; try nia; try exact W.
Qed.

Lemma slide_update_advances_by_overlap_witness :
  current_position
    (snd (slides Transforms.slide (mkSlider 4 0 2)
            [Vec (nums [1; 2; 3; 4; 5; 6]); Vec (nums [1; 2; 3; 4; 5; 6])]))
  = 0 + 2 * 2.
Proof.
  pose proof (slide_update_advances_by_overlap (mkSlider 4 0 2)
    [Vec (nums [1; 2; 3; 4; 5; 6]); Vec (nums [1; 2; 3; 4; 5; 6])]) as H.
  cbn [window_overlap window_length] in H.
  assert (H1 : 0 <= 2) by lia. assert (H2 : 2 <= 4) by lia.
  exact (proj1 (proj2 (proj2 (proj2 (H H1 H2))))).
Defined.

(** C10: a call with [update=False] leaves [current_position],
    [window_length] and [window_overlap] as they were, and after any
    number of such calls the next one returns the window the first one
    returned; in both classes. *)
Theorem slide_peek_idempotent (s : Slider) (x : ndarray) (n : nat) :
  snd (Transforms.slide s x false) = s
  /\ snd (Metrics.slide s x false) = s
  /\ peeks Transforms.slide x n s = s
  /\ peeks Metrics.slide x n s = s
  /\ fst (Transforms.slide (peeks Transforms.slide x n s) x false)
     = fst (Transforms.slide s x false)
  /\ fst (Metrics.slide (peeks Metrics.slide x n s) x false)
     = fst (Metrics.slide s x false).
Proof.
  assert (P : peeks Transforms.slide x n s = s).
  { induction n as [|n IH]; [reflexivity|].
    unfold peeks in *. rewrite Nat.iter_succ, IH. reflexivity. }
  rewrite Metrics_slide_eq, P. repeat split.
Qed.

(** ** The sampling-frequency estimator *)

Lemma get_middle {A} (pre : list A) (a : A) (rest : list A) :
  get (pre ++ a :: rest) (length pre) = Ok a.
Proof. unfold get. rewrite list_lookup_middle; reflexivity. Qed.

Lemma accumulate_loop (rest pre : list num) (a : num) (acc : scalar) :
  for_loop (seq (S (length pre)) (length rest))
           (Metrics.accumulate_step (pre ++ a :: rest)) acc
  = Ok (fold_left add_if_small (np_diff (a :: rest)) acc).
Proof.
  revert pre a acc. induction rest as [|b rest IH]; intros pre a acc.
  - reflexivity.
  - cbn [length seq for_loop]. unfold Metrics.accumulate_step at 1.
    replace (S (length pre) - 1)%nat with (length pre) by lia.
    rewrite get_middle.
    replace (pre ++ a :: b :: rest) with ((pre ++ [a]) ++ b :: rest)
      by (rewrite <- app_assoc; reflexivity).
    replace (S (length pre)) with (length (pre ++ [a]))
      by (rewrite length_app; cbn; lia).
    rewrite get_middle. cbn [rbind].
    change (np_diff (a :: b :: rest))
      with (num_sub b a :: np_diff (b :: rest)).
    cbn [fold_left]. unfold add_if_small at 2.
    destruct (num_ltb (num_sub b a) Metrics.threshold);
      cbn [rbind]; apply IH.
Qed.

Lemma accumulate_all (timestamps : list num) :
  for_loop (py_range 1 (length timestamps))
           (Metrics.accumulate_step timestamps) (PyInt 0)
  = Ok (fold_left add_if_small (np_diff timestamps) (PyInt 0)).
Proof.
  destruct timestamps as [|a rest]; [reflexivity|].
  unfold py_range. cbn [length].
  replace (S (length rest) - 1)%nat with (length rest) by lia.
  apply (accumulate_loop rest [] a).
Qed.

Lemma fold_add_if_small (l : list num) (acc : scalar) :
  fold_left add_if_small l acc
  = fold_left py_add
      (map NpFloat (List.filter (fun d => num_ltb d Metrics.threshold) l))
      acc.
Proof.
  revert acc. induction l as [|d l IH]; intros acc; [reflexivity|].
  cbn [fold_left List.filter]. unfold add_if_small at 2.
  destruct (num_ltb d Metrics.threshold); cbn [map fold_left]; apply IH.
Qed.

Lemma fold_py_add_np (l : list num) (v : num) :
  fold_left py_add (map NpFloat l) (NpFloat v)
  = NpFloat (fold_left num_add l v).
Proof.
  revert v. induction l as [|d l IH]; intros v; [reflexivity|].
  cbn [map fold_left]. change (py_add (NpFloat v) (NpFloat d))
    with (NpFloat (num_add v d)). apply IH.
Qed.

(** The value of [sampling_frequency] when the loop ends: still the Python
    integer [0] when no delta was small, a NumPy scalar otherwise. *)
Lemma accumulated (timestamps : list num) :
  fold_left add_if_small (np_diff timestamps) (PyInt 0)
  = match small_deltas timestamps with
    | [] => PyInt 0
    | _ => NpFloat (num_sum (small_deltas timestamps))
    end.
Proof.
  rewrite fold_add_if_small. fold (small_deltas timestamps).
  destruct (small_deltas timestamps) as [|d l]; [reflexivity|].
  cbn [map fold_left].
  change (py_add (PyInt 0) (NpFloat d)) with (NpFloat (num_add (Fin 0) d)).
  rewrite fold_py_add_np. reflexivity.
Qed.

Lemma zero_over_count (n : Z) :
  num_eqb (num_of_Z n) (Fin 0) = false ->
  num_eqb (num_div (Fin 0) (num_of_Z n)) (Fin 0) = true.
Proof.
  unfold num_div, num_of_Z, num_eqb, Qis0. intros ->.
  unfold fin. apply Qeq_bool_iff. rewrite Qred_correct.
  unfold Qdiv. apply Qmult_0_l.
Qed.

Lemma py_truediv_int_int (z n : Z) :
  py_truediv (PyInt z) (PyInt n)
  = if num_eqb (num_of_Z n) (Fin 0) then Raise ZeroDivisionError
    else Ok (PyFloat (num_div (num_of_Z z) (num_of_Z n))).
Proof. reflexivity. Qed.

Lemma py_truediv_int_float (z : Z) (v : num) :
  py_truediv (PyInt z) (PyFloat v)
  = if num_eqb v (Fin 0) then Raise ZeroDivisionError
    else Ok (PyFloat (num_div (num_of_Z z) v)).
Proof. reflexivity. Qed.

Lemma num_leb_not_ltb (a b : num) : num_leb a b = true -> num_ltb b a = false.
Proof.
  destruct a, b; cbn; try congruence. unfold Qltb. intros ->. reflexivity.
Qed.

(** In plain arithmetic: with a finite non-zero sum [s] of the small
    deltas of [n >= 1] timestamps the value is [n / s]. *)
Lemma reciprocal_mean_delta_finite (timestamps : list num) (s : Q) :
  timestamps <> [] ->
  num_sum (small_deltas timestamps) = Fin s ->
  ~ (s == 0)%Q ->
  exists q, reciprocal_mean_delta timestamps = Fin q
            /\ (q == inject_Z (Z.of_nat (length timestamps)) / s)%Q.
Proof.
  intros Hne Hs Hs0. unfold reciprocal_mean_delta. rewrite Hs.
  set (n := Z.of_nat (length timestamps)).
  assert (Hn : (0 < inject_Z n)%Q).
  { unfold Qlt. cbn. destruct timestamps; [congruence|]. subst n.
    cbn [length]. lia. }
  unfold num_of_nat, num_of_Z. fold n. unfold num_div at 2, Qis0.
  destruct (Qeq_bool (inject_Z n) 0) eqn:En.
  { apply Qeq_bool_iff in En. lra. }
  unfold fin, num_div, Qis0.
  destruct (Qeq_bool (Qred (s / inject_Z n)) 0) eqn:Ez.
  { apply Qeq_bool_iff in Ez. rewrite Qred_correct in Ez. exfalso.
    apply Hs0. apply (Qmult_inj_r _ _ (/ inject_Z n)).
    - intros H. apply (Qinv_lt_0_compat) in Hn. lra.
    - unfold Qdiv in Ez. rewrite Ez. ring. }
  eexists. split; [reflexivity|]. unfold fin.
  rewrite !Qred_correct. field. split; [exact Hs0|lra].
Qed.

(** C6, as stated, fails: for [[0, 100]] no delta is below the threshold,
    [sampling_frequency] is still the Python integer [0], [0 / 2] is the
    Python float [0.0] and [1 / 0.0] raises [ZeroDivisionError]. *)
Lemma estimator_raises_without_small_delta :
  ~ estimator_returns_reciprocal (nums [0; 100]).
Proof.
  intros [s [H _]]. vm_compute in H. discriminate H.
Qed.

Lemma estimator_value (timestamps : list num) :
  small_deltas timestamps <> [] ->
  Metrics.establish_sampling_frequency timestamps
  = Ok (NpFloat (reciprocal_mean_delta timestamps)).
Proof.
  intros Hne. unfold Metrics.establish_sampling_frequency. cbv zeta.
  rewrite accumulate_all, accumulated. cbn [rbind].
  destruct (small_deltas timestamps) as [|d l] eqn:E; [congruence|].
  unfold reciprocal_mean_delta. rewrite E. reflexivity.
Qed.

(** C6 (amended): for every timestamp sequence with at least one successive
    delta strictly below 100, the estimator returns the reciprocal (an
    infinity when the sum is zero) of the sum of the deltas strictly below
    100 divided by the total number of timestamps. *)
Theorem estimator_reciprocal_of_filtered_sum_over_count
    (timestamps : list num) :
  small_deltas timestamps <> [] ->
  Metrics.establish_sampling_frequency timestamps
  = Ok (NpFloat (reciprocal_mean_delta timestamps)).
Proof. exact (estimator_value timestamps). Qed.

Lemma estimator_reciprocal_of_filtered_sum_over_count_witness :
  Metrics.establish_sampling_frequency (nums [0; 1; 2])
  = Ok (NpFloat (reciprocal_mean_delta (nums [0; 1; 2]))).
Proof.
  apply (estimator_reciprocal_of_filtered_sum_over_count (nums [0; 1; 2])).
  vm_compute. discriminate.
Defined.

(** C7, as stated, fails: on [[0, 100]] the only delta is 100 and the
    estimator raises instead of returning 0. *)
Lemma estimator_all_gaps_large_no_zero :
  ~ estimator_zero_when_all_gaps_large (nums [0; 100]).
Proof.
  intros H. destruct H as [s [H _]].
  - intros d [<-|[]]. vm_compute. reflexivity.
  - vm_compute in H. discriminate H.
Qed.

(** C7 (amended): for every timestamp sequence in which every successive
    delta is at least 100, the estimator raises [ZeroDivisionError]; no
    frequency is returned. *)
Theorem estimator_raises_when_all_gaps_large (timestamps : list num) :
  (forall d, In d (np_diff timestamps) ->
             num_leb Metrics.threshold d = true) ->
  Metrics.establish_sampling_frequency timestamps = Raise ZeroDivisionError.
Proof.
  intros Hall.
  assert (E : small_deltas timestamps = []).
  { unfold small_deltas. induction (np_diff timestamps) as [|d l IH];
      [reflexivity|]. cbn [List.filter].
    rewrite (num_leb_not_ltb _ _ (Hall d (or_introl eq_refl))).
    apply IH. intros d' Hd'. apply Hall. right. exact Hd'. }
  unfold Metrics.establish_sampling_frequency. cbv zeta.
  rewrite accumulate_all, accumulated, E. cbn [rbind].
  rewrite py_truediv_int_int.
  destruct (num_eqb (num_of_Z (Z.of_nat (length timestamps))) (Fin 0))
    eqn:En; [reflexivity|].
  cbn [rbind]. rewrite py_truediv_int_float.
  change (num_of_Z 0) with (Fin 0). rewrite (zero_over_count _ En).
  reflexivity.
Qed.

Lemma estimator_raises_when_all_gaps_large_witness :
  Metrics.establish_sampling_frequency (nums [0; 100; 300])
  = Raise ZeroDivisionError.
Proof.
  apply (estimator_raises_when_all_gaps_large (nums [0; 100; 300])).
  intros d [<-|[<-|[]]]; vm_compute; reflexivity.
Defined.

(** ** Window length derivation *)

Lemma Qtrunc_integer (q : Q) (z : Z) : (q == inject_Z z)%Q -> Qtrunc q = z.
Proof.
  intros E. unfold Qtrunc. destruct (Qltb q 0).
  - rewrite E. apply Qceiling_Z.
  - rewrite E. apply Qfloor_Z.
Qed.

Lemma mod2_zero_even (r : Q) :
  (r - 2 * inject_Z (Qfloor (r / 2)) == 0)%Q <-> even_integer r.
Proof.
  split.
  - intros E. exists (Qfloor (r / 2)). rewrite inject_Z_mult.
    change (inject_Z 2) with 2%Q. lra.
  - intros [k E].
    assert (E2 : (r / 2 == inject_Z k)%Q).
    { rewrite E, inject_Z_mult. change (inject_Z 2) with 2%Q. field. }
    rewrite E2, Qfloor_Z, E, inject_Z_mult. change (inject_Z 2) with 2%Q.
    ring.
Qed.

Lemma even_integer_comp (r r' : Q) :
  (r == r')%Q -> even_integer r -> even_integer r'.
Proof. intros E [k H]. exists k. rewrite <- E. exact H. Qed.

Lemma py_truediv_np_r (a : scalar) (v : num) :
  py_truediv a (NpFloat v) = Ok (NpFloat (num_div (scalar_val a) v)).
Proof. destruct a; reflexivity. Qed.

(** Lines 22-25 of [__init__] on a finite ratio. *)
Lemma round_ratio (r : Q) :
  exists wl,
    py_int (if num_neb (num_mod (fin r) (Fin 2)) (Fin 0)
            then num_ceil (fin r) else fin r) = Ok wl
    /\ derived_length wl r.
Proof.
  unfold fin at 1, num_mod. change (Qis0 2) with false. cbv iota.
  set (m := (Qred r - 2 * inject_Z (Qfloor (Qred r / 2)))%Q).
  unfold num_neb, num_eqb, fin at 1.
  destruct (Qeq_bool (Qred m) 0) eqn:Em; cbn [negb].
  - apply Qeq_bool_iff in Em. rewrite Qred_correct in Em.
    apply mod2_zero_even in Em.
    apply (even_integer_comp _ r (Qred_correct r)) in Em.
    destruct Em as [k Ek].
    exists (2 * k). split.
    + unfold fin, py_int. f_equal. apply Qtrunc_integer.
      rewrite Qred_correct. exact Ek.
    + split; intros H.
      * rewrite Ek, Qfloor_Z. reflexivity.
      * exfalso. apply H. exists k. exact Ek.
  - apply Qeq_bool_neq in Em. rewrite Qred_correct in Em.
    exists (Qceiling r). split.
    + unfold fin, num_ceil, num_of_Z, py_int. f_equal.
      rewrite (Qtrunc_integer _ (Qceiling (Qred r))) by reflexivity.
      rewrite Qred_correct. reflexivity.
    + split; intros H; [|reflexivity].
      exfalso. apply Em. apply mod2_zero_even.
      apply (even_integer_comp r); [symmetry; apply Qred_correct|exact H].
Qed.

(** C8, as stated, fails: the timestamps [[0, 10]] give the positive
    frequency [1/5], whose floor is [0]; [60 / 0.0] is infinite,
    [inf % 2] is NaN, [np.ceil(inf)] is infinite and [int(inf)] raises
    [OverflowError]. *)
Lemma window_length_raises_below_one_hertz :
  ~ window_length_for_positive_frequency (nums [0; 10]) (PyInt 60) 60 1.
Proof.
  intros H.
  destruct (H (NpFloat (Fin (1 # 5)))) as [s [Hs _]];
    try (vm_compute; reflexivity).
  vm_compute in Hs. discriminate Hs.
Qed.

(** C8 (amended): for every timestamp sequence whose estimated sampling
    frequency [f] is at least 1 and every finite aggregation duration [d],
    the derived window length is the integer ceiling of [d / floor(f)] when
    [d / floor(f)] is not evenly divisible by 2 and [d / floor(f)] itself,
    cast to an integer, otherwise; the cursor starts at 0 and the overlap
    is the one given. *)
Theorem window_length_from_frequency_at_least_one
    (timestamps : list num) (aggregation_duration : scalar) (d : Q)
    (window_overlap : Z) (f : scalar) :
  Metrics.establish_sampling_frequency timestamps = Ok f ->
  num_leb (Fin 1) (scalar_val f) = true ->
  scalar_val aggregation_duration = Fin d ->
  exists wl,
    Metrics.init timestamps aggregation_duration window_overlap
    = Ok (mkSlider wl 0 window_overlap)
    /\ derived_length wl (duration_ratio d (scalar_val f)).
Proof.
  intros Hf Hge Hd. unfold Metrics.init. rewrite Hf. cbn [rbind].
  rewrite py_truediv_np_r, Hd. cbn [rbind scalar_val]. cbv zeta.
  destruct (scalar_val f) as [q| | |] eqn:Ev; cbn in Hge; try discriminate.
  - apply Qle_bool_iff in Hge.
    assert (Hfl : (1 <= Qfloor q)%Z).
    { rewrite <- (Qfloor_Z 1). apply Qfloor_resp_le. exact Hge. }
    cbn [num_floor duration_ratio]. unfold num_div, num_of_Z.
    assert (Hz : Qis0 (inject_Z (Qfloor q)) = false).
    { unfold Qis0. destruct (Qeq_bool _ 0) eqn:E; [|reflexivity].
      apply Qeq_bool_iff in E. unfold Qeq in E. cbn in E. lia. }
    rewrite Hz.
    destruct (round_ratio (d / inject_Z (Qfloor q))) as [wl [E D]].
    exists wl. rewrite E. split; [reflexivity|exact D].
  - exists 0. split; [reflexivity|].
    split; intros H; [reflexivity|].
    exfalso. apply H. exists 0. reflexivity.
Qed.

Lemma window_length_from_frequency_at_least_one_witness :
  exists wl,
    Metrics.init (nums [0; 1; 2; 3]) (PyInt 7) 1 = Ok (mkSlider wl 0 1)
    /\ derived_length wl
         (duration_ratio 7 (scalar_val (NpFloat (Fin (4 # 3))))).
Proof.
  apply (window_length_from_frequency_at_least_one
           (nums [0; 1; 2; 3]) (PyInt 7) 7 1 (NpFloat (Fin (4 # 3))));
    vm_compute; reflexivity.
Defined.

(** ** Crossing counts on degenerate windows *)

(** C4, as stated, fails: on the empty window [x[0]] is read before the
    loop, so [zero_crossings] raises [IndexError]. *)
Lemma crossings_raise_on_empty_window : ~ crossings_return [].
Proof. intros [[n H] _]. discriminate H. Qed.

Lemma zc_step_ok (xi : num) (d : nat) (c : Z) :
  (d <= 1)%nat ->
  exists d' c', Transforms.zc_step [1%nat; 0%nat] xi (d, c) = Ok (d', c')
                /\ (d' <= 1)%nat /\ c <= c' <= c + 1.
Proof.
  intros Hd. unfold Transforms.zc_step.
  destruct (_ || _).
  - assert (Hd' : d = 0%nat \/ d = 1%nat) by lia.
    destruct Hd' as [-> | ->]; cbn; eexists _, _;
      (split; [reflexivity|]); lia.
  - exists d, c. split; [reflexivity|]. lia.
Qed.

Lemma zc_loop_ok (rest pre : list num) (d : nat) (c : Z) :
  (d <= 1)%nat ->
  exists d' c',
    for_loop (seq (length pre) (length rest))
      (fun i st =>
         let* xi := get (pre ++ rest) i in
         Transforms.zc_step [1%nat; 0%nat] xi st) (d, c)
    = Ok (d', c')
    /\ c <= c' <= c + Z.of_nat (length rest).
Proof.
  revert pre d c. induction rest as [|a rest IH]; intros pre d c Hd.
  - exists d, c. split; [reflexivity|]. cbn. lia.
  - cbn [length seq for_loop]. rewrite get_middle. cbn [rbind].
    destruct (zc_step_ok a d c Hd) as [d1 [c1 [E [Hd1 Hc1]]]].
    rewrite E. cbn [rbind].
    replace (pre ++ a :: rest) with ((pre ++ [a]) ++ rest)
      by (rewrite <- app_assoc; reflexivity).
    replace (S (length pre)) with (length (pre ++ [a]))
      by (rewrite length_app; cbn; lia).
    destruct (IH (pre ++ [a]) d1 c1 Hd1) as [d2 [c2 [E2 Hc2]]].
    exists d2, c2. split; [exact E2|]. lia.
Qed.

Lemma zero_crossings_nonempty (x : list num) :
  x <> [] ->
  exists n, Transforms.zero_crossings x = Ok n
            /\ 0 <= n <= Z.of_nat (length x).
Proof.
  intros Hx. destruct x as [|x0 x]; [congruence|].
  unfold Transforms.zero_crossings. cbv zeta.
  change (get (x0 :: x) 0) with (Ok x0). cbn [rbind].
  unfold py_range. rewrite Nat.sub_0_r.
  destruct (zc_loop_ok (x0 :: x) []
              (if num_leb (Fin 0) x0 then 1%nat else 0%nat) 0)
    as [d [c [E Hc]]].
  { destruct (num_leb (Fin 0) x0); lia. }
  cbn [app length] in E. cbn [length]. rewrite E. cbn [rbind snd].
  exists c. split; [reflexivity|]. cbn [length] in Hc. lia.
Qed.

(** C4 (amended): on an empty window [zero_crossings] and
    [mean_crossings] raise [IndexError]; on every non-empty window both
    return a count between 0 and the length of the window. *)
Theorem crossings_defined_exactly_on_nonempty_windows (x : list num) :
  (x = [] ->
   Transforms.zero_crossings x = Raise IndexError
   /\ Transforms.mean_crossings x = Raise IndexError)
  /\ (x <> [] ->
      (exists n, Transforms.zero_crossings x = Ok n
                 /\ 0 <= n <= Z.of_nat (length x))
      /\ (exists n, Transforms.mean_crossings x = Ok n
                    /\ 0 <= n <= Z.of_nat (length x))).
Proof.
  split.
  - intros ->. split; reflexivity.
  - intros Hx. split; [apply zero_crossings_nonempty; exact Hx|].
    unfold Transforms.mean_crossings. cbv zeta.
    rewrite <- (length_map (fun a => num_sub a (np_mean x)) x).
    apply zero_crossings_nonempty.
    destruct x; [congruence|discriminate].
Qed.

Lemma crossings_defined_exactly_on_nonempty_windows_witness :
  (exists n, Transforms.zero_crossings (nums [1; -1; 1; -1]) = Ok n
             /\ 0 <= n <= Z.of_nat (length (nums [1; -1; 1; -1])))
  /\ (exists n, Transforms.mean_crossings (nums [1; -1; 1; -1]) = Ok n
                /\ 0 <= n <= Z.of_nat (length (nums [1; -1; 1; -1]))).
Proof.
  apply (proj2 (crossings_defined_exactly_on_nonempty_windows
                  (nums [1; -1; 1; -1]))).
  discriminate.
Defined.

(** ** Spectral entropy *)

Lemma Qle_bool_false (a b : Q) : Qle_bool a b = false -> (b < a)%Q.
Proof.
  intros H. apply Qnot_le_lt. intros L. apply Qle_bool_iff in L. congruence.
Qed.

Lemma magnitude_leb_refl (a : num) : magnitude a -> num_leb a a = true.
Proof. intros [q [-> _]]. apply Qle_bool_iff. apply Qle_refl. Qed.

Lemma magnitude_leb_trans (a b c : num) :
  magnitude b -> num_leb a b = true -> num_leb b c = true ->
  num_leb a c = true.
Proof.
  intros [q [-> _]]. destruct a, c; cbn; try congruence.
  rewrite !Qle_bool_iff. apply Qle_trans.
Qed.

Lemma keep_min_spec (a e : num) :
  magnitude a -> magnitude e ->
  magnitude (keep_min a e) /\ (keep_min a e = a \/ keep_min a e = e)
  /\ num_leb (keep_min a e) a = true /\ num_leb (keep_min a e) e = true.
Proof.
  intros Ha He. pose proof Ha as [qa [-> Hqa]]. pose proof He as [qe [-> Hqe]].
  unfold keep_min, num_ltb, Qltb.
  destruct (Qle_bool qa qe) eqn:E; cbn [negb num_leb].
  - repeat split; auto. apply Qle_bool_iff, Qle_refl.
  - apply Qle_bool_false in E. repeat split; auto.
    + apply Qle_bool_iff, Qlt_le_weak, E.
    + apply Qle_bool_iff, Qle_refl.
Qed.

Lemma keep_max_spec (a e : num) :
  magnitude a -> magnitude e ->
  magnitude (keep_max a e) /\ (keep_max a e = a \/ keep_max a e = e)
  /\ num_leb a (keep_max a e) = true /\ num_leb e (keep_max a e) = true.
Proof.
  intros Ha He. pose proof Ha as [qa [-> Hqa]]. pose proof He as [qe [-> Hqe]].
  unfold keep_max, num_ltb, Qltb.
  destruct (Qle_bool qe qa) eqn:E; cbn [negb num_leb].
  - repeat split; auto. apply Qle_bool_iff, Qle_refl.
  - apply Qle_bool_false in E. repeat split; auto.
    + apply Qle_bool_iff, Qlt_le_weak, E.
    + apply Qle_bool_iff, Qle_refl.
Qed.

Lemma fold_min_spec (tl : list num) (a : num) :
  magnitude a -> Forall magnitude tl ->
  let r := fold_left keep_min tl a in
  magnitude r /\ In r (a :: tl)
  /\ forall m, In m (a :: tl) -> num_leb r m = true.
Proof.
  revert a. induction tl as [|e tl IH]; intros a Ha Htl r; subst r.
  - cbn. repeat split; auto.
    intros m [<-|[]]. apply magnitude_leb_refl, Ha.
  - inversion Htl as [|? ? He Htl']; subst. cbn [fold_left].
    destruct (keep_min_spec a e Ha He) as [Hk [Hc [Hla Hle]]].
    destruct (IH (keep_min a e) Hk Htl') as [Hr [Hin Hall]].
    split; [exact Hr|]. split.
    + destruct Hin as [Hin|Hin].
      * rewrite <- Hin. destruct Hc as [-> | ->]; cbn; auto.
      * right. right. exact Hin.
    + intros m [<-|[<-|Hm]].
      * apply (magnitude_leb_trans _ (keep_min a e)); auto.
        apply Hall. left. reflexivity.
      * apply (magnitude_leb_trans _ (keep_min a e)); auto.
        apply Hall. left. reflexivity.
      * apply Hall. right. exact Hm.
Qed.

Lemma fold_max_spec (tl : list num) (a : num) :
  magnitude a -> Forall magnitude tl ->
  let r := fold_left keep_max tl a in
  magnitude r /\ In r (a :: tl)
  /\ forall m, In m (a :: tl) -> num_leb m r = true.
Proof.
  revert a. induction tl as [|e tl IH]; intros a Ha Htl r; subst r.
  - cbn. repeat split; auto.
    intros m [<-|[]]. apply magnitude_leb_refl, Ha.
  - inversion Htl as [|? ? He Htl']; subst. cbn [fold_left].
    destruct (keep_max_spec a e Ha He) as [Hk [Hc [Hla Hle]]].
    destruct (IH (keep_max a e) Hk Htl') as [Hr [Hin Hall]].
    split; [exact Hr|]. split.
    + destruct Hin as [Hin|Hin].
      * rewrite <- Hin. destruct Hc as [-> | ->]; cbn; auto.
      * right. right. exact Hin.
    + intros m [<-|[<-|Hm]].
      * apply (magnitude_leb_trans _ (keep_max a e)); auto.
        apply Hall. left. reflexivity.
      * apply (magnitude_leb_trans _ (keep_max a e)); auto.
        apply Hall. left. reflexivity.
      * apply Hall. right. exact Hm.
Qed.

Lemma py_min_spec (l : list num) :
  l <> [] -> Forall magnitude l ->
  exists lo, Transforms.py_min l = Ok lo /\ magnitude lo /\ In lo l
             /\ forall m, In m l -> num_leb lo m = true.
Proof.
  intros Hl HF. destruct l as [|a tl]; [congruence|].
  inversion HF; subst. eexists. split; [reflexivity|].
  apply (fold_min_spec tl a); assumption.
Qed.

Lemma py_max_spec (l : list num) :
  l <> [] -> Forall magnitude l ->
  exists hi, Transforms.py_max l = Ok hi /\ magnitude hi /\ In hi l
             /\ forall m, In m l -> num_leb m hi = true.
Proof.
  intros Hl HF. destruct l as [|a tl]; [congruence|].
  inversion HF; subst. eexists. split; [reflexivity|].
  apply (fold_max_spec tl a); assumption.
Qed.

Lemma magnitude_add (a b : num) :
  magnitude a -> magnitude b -> magnitude (num_add a b).
Proof.
  intros [qa [-> Ha]] [qb [-> Hb]]. eexists. split; [reflexivity|].
  rewrite Qred_correct. lra.
Qed.

Lemma magnitude_sum (l : list num) (acc : num) :
  magnitude acc -> Forall magnitude l -> magnitude (fold_left num_add l acc).
Proof.
  revert acc. induction l as [|a l IH]; intros acc Hacc Hl; [exact Hacc|].
  inversion Hl; subst. cbn [fold_left]. apply IH; [|assumption].
  apply magnitude_add; assumption.
Qed.

Lemma magnitude_normalise (F : list num) :
  Forall magnitude F -> Forall magnitude (Transforms.normalise_spectrum F).
Proof.
  intros HF. unfold Transforms.normalise_spectrum. cbv zeta.
  assert (Hs : magnitude (num_sum F)).
  { apply magnitude_sum; [|exact HF]. exists 0%Q. split; [reflexivity|lra]. }
  destruct Hs as [s [Es Hs]]. rewrite Es.
  set (sumf := if num_eqb (Fin s) (Fin 0) then Fin 1 else Fin s).
  assert (Hsum : exists t, sumf = Fin t /\ (0 < t)%Q).
  { subst sumf. cbn [num_eqb]. destruct (Qeq_bool s 0) eqn:E.
    - exists 1%Q. split; [reflexivity|lra].
    - exists s. split; [reflexivity|]. apply Qeq_bool_neq in E. lra. }
  destruct Hsum as [t [-> Ht]].
  apply List.Forall_forall. intros m Hm. apply in_map_iff in Hm.
  destruct Hm as [a [<- Ha]].
  apply (proj1 (List.Forall_forall _ _) HF) in Ha. destruct Ha as [q [-> Hq]].
  unfold num_div, Qis0. destruct (Qeq_bool t 0) eqn:E.
  - apply Qeq_bool_iff in E. lra.
  - eexists. split; [reflexivity|]. rewrite Qred_correct.
    apply Qle_shift_div_l; [exact Ht|lra].
Qed.

Lemma magnitude_positive (m : num) :
  magnitude m -> num_eqb m (Fin 0) = false -> num_ltb (Fin 0) m = true.
Proof.
  intros [q [-> Hq]] E. cbn in *. apply Qeq_bool_neq in E.
  unfold Qltb. destruct (Qle_bool q 0) eqn:L; [|reflexivity].
  apply Qle_bool_iff in L. exfalso. apply E. lra.
Qed.




Lemma zip_with_map_r {A B C} (f : A -> B -> C) (g : A -> B) (l : list A) :
  zip_with f l (map g l) = map (fun a => f a (g a)) l.
Proof. induction l as [|a l IH]; [reflexivity|]. cbn. f_equal. exact IH. Qed.




(** ** Speed *)

Lemma insert_middle {A} (pre : list A) (a v : A) (rest : list A) :
  <[length pre := v]> (pre ++ a :: rest) = pre ++ v :: rest.
Proof. induction pre as [|p pre IH]; [reflexivity|]. cbn. f_equal. exact IH. Qed.

Lemma speed_loop (unique_lab : list Z) (adjacency : list (list num))
    (lrest : list Z) :
  forall (trest : list num) (lpre : list Z) (tpre : list num) (a : Z)
         (t : num) (cpre mpre : list num),
    length trest = length lrest ->
    length tpre = length lpre ->
    length cpre = S (length lpre) ->
    length mpre = S (length lpre) ->
    covers adjacency unique_lab (a :: lrest) ->
    for_loop (seq (S (length lpre)) (length lrest))
      (Metrics.speed_step unique_lab (lpre ++ a :: lrest) adjacency
                          (tpre ++ t :: trest))
      (cpre ++ replicate (length lrest) (Fin 0),
       mpre ++ replicate (length lrest) (Fin 0))
    = Ok (cpre ++ map (fun p => num_add (Fin 0)
                                  (weight_of adjacency unique_lab p))
                      (pairs (a :: lrest)),
          mpre ++ map (fun p => num_add (Fin 0) (gap_of p))
                      (pairs (t :: trest))).
Proof.
  induction lrest as [|b lrest IH];
    intros trest lpre tpre a t cpre mpre Ht Htp Hc Hm Hcov.
  - destruct trest; [|discriminate Ht]. reflexivity.
  - destruct trest as [|t' trest]; [discriminate Ht|].
    injection Ht as Ht.
    inversion Hcov as [|p ps [w Hw] Hcov']; subst.
    cbn [length seq for_loop replicate].
    unfold Metrics.speed_step at 1.
    replace (S (length lpre) - 1)%nat with (length lpre) by lia.
    rewrite (get_middle lpre a (b :: lrest)). cbn [rbind].
    replace (tpre ++ t :: t' :: trest) with ((tpre ++ [t]) ++ t' :: trest)
      by (rewrite <- app_assoc; reflexivity).
    replace (lpre ++ a :: b :: lrest) with ((lpre ++ [a]) ++ b :: lrest)
      by (rewrite <- app_assoc; reflexivity).
    assert (El : S (length lpre) = length (lpre ++ [a]))
      by (rewrite length_app; cbn; lia).
    assert (Et : S (length lpre) = length (tpre ++ [t]))
      by (rewrite length_app; cbn; lia).
    assert (G1 : get ((lpre ++ [a]) ++ b :: lrest) (S (length lpre)) = Ok b)
      by (rewrite El; apply get_middle).
    assert (G2 : get ((tpre ++ [t]) ++ t' :: trest) (S (length lpre)) = Ok t')
      by (rewrite Et; apply get_middle).
    assert (G3 : get ((tpre ++ [t]) ++ t' :: trest) (length lpre) = Ok t).
    { rewrite <- Htp, <- app_assoc.
      apply (get_middle tpre t (t' :: trest)). }
    assert (G4 : forall pre : list num, length pre = S (length lpre) ->
              get (pre ++ Fin 0 :: replicate (length lrest) (Fin 0))
                  (S (length lpre)) = Ok (Fin 0))
      by (intros pre <-; apply get_middle).
    assert (I1 : forall (pre : list num) v, length pre = S (length lpre) ->
              <[S (length lpre) := v]>
                (pre ++ Fin 0 :: replicate (length lrest) (Fin 0))
              = pre ++ v :: replicate (length lrest) (Fin 0))
      by (intros pre v <-; apply insert_middle).
    rewrite G1, G2, G3, (G4 cpre Hc), (G4 mpre Hm).
    unfold pair_weight in Hw. cbn [fst snd] in Hw.
    assert (Ew : weight_of adjacency unique_lab (a, b) = w).
    { unfold weight_of, pair_weight. cbn [fst snd]. rewrite Hw.
      reflexivity. }
    destruct (where0 unique_lab a) as [i|] eqn:Ei; [|discriminate Hw].
    cbn [rbind] in *.
    destruct (where0 unique_lab b) as [j|] eqn:Ej; [|discriminate Hw].
    cbn [rbind] in *. rewrite Hw. cbn [rbind].
    rewrite (I1 cpre _ Hc), (I1 mpre _ Hm).
    replace (cpre ++ num_add (Fin 0) w :: replicate (length lrest) (Fin 0))
      with ((cpre ++ [num_add (Fin 0) w]) ++ replicate (length lrest) (Fin 0))
      by (rewrite <- app_assoc; reflexivity).
    replace (mpre ++ num_add (Fin 0) (num_sub t t')
                  :: replicate (length lrest) (Fin 0))
      with ((mpre ++ [num_add (Fin 0) (num_sub t t')])
              ++ replicate (length lrest) (Fin 0))
      by (rewrite <- app_assoc; reflexivity).
    rewrite El.
    rewrite (IH trest (lpre ++ [a]) (tpre ++ [t]) b t'
               (cpre ++ [num_add (Fin 0) w])
               (mpre ++ [num_add (Fin 0) (num_sub t t')])).
    + change (pairs (a :: b :: lrest)) with ((a, b) :: pairs (b :: lrest)).
      change (pairs (t :: t' :: trest))
        with ((t, t') :: pairs (t' :: trest)).
      cbn [map]. rewrite Ew. unfold gap_of at 2. cbn [fst snd].
      rewrite <- !app_assoc. reflexivity.
    + exact Ht.
    + rewrite !length_app. cbn. lia.
    + rewrite !length_app. cbn. lia.
    + rewrite !length_app. cbn. lia.
    + exact Hcov'.
Qed.

Lemma Qis0_comp (x y : Q) : (x == y)%Q -> Qis0 x = Qis0 y.
Proof.
  intros E. unfold Qis0.
  destruct (Qeq_bool x 0) eqn:Ex, (Qeq_bool y 0) eqn:Ey; try reflexivity.
  - apply Qeq_bool_iff in Ex. apply Qeq_bool_neq in Ey. lra.
  - apply Qeq_bool_iff in Ey. apply Qeq_bool_neq in Ex. lra.
Qed.

Lemma Qltb0_comp (x y : Q) : (x == y)%Q -> Qltb x 0 = Qltb y 0.
Proof.
  intros E. unfold Qltb.
  destruct (Qle_bool 0 x) eqn:Ex, (Qle_bool 0 y) eqn:Ey; try reflexivity.
  - apply Qle_bool_iff in Ex. apply Qle_bool_false in Ey. lra.
  - apply Qle_bool_iff in Ey. apply Qle_bool_false in Ex. lra.
Qed.

Lemma Qred_zero_plus (x : Q) : (Qred (0 + x) == x)%Q.
Proof. rewrite Qred_correct. ring. Qed.

(** Adding an entry to a zero-initialised cell does not change a ratio. *)
Lemma num_div_add0 (a b : num) :
  num_div (num_add (Fin 0) a) (num_add (Fin 0) b) = num_div a b.
Proof.
  destruct a as [x| | |], b as [y| | |]; try reflexivity.
  - cbn [num_add]. unfold fin, num_div, num_neg.
    rewrite (Qis0_comp _ _ (Qred_zero_plus y)).
    rewrite (Qis0_comp _ _ (Qred_zero_plus x)).
    rewrite (Qltb0_comp _ _ (Qred_zero_plus x)).
    destruct (Qis0 y) eqn:Ey; [reflexivity|].
    unfold fin. f_equal. apply Qred_complete.
    rewrite !Qred_zero_plus. reflexivity.
  - cbn [num_add]. unfold fin, num_div, num_neg.
    rewrite (Qltb0_comp _ _ (Qred_zero_plus y)). reflexivity.
  - cbn [num_add]. unfold fin, num_div, num_neg.
    rewrite (Qltb0_comp _ _ (Qred_zero_plus y)). reflexivity.
Qed.

Lemma zip_div_add0 {A B} (f : A -> num) (g : B -> num)
    (l1 : list A) (l2 : list B) :
  zip_with num_div (map (fun p => num_add (Fin 0) (f p)) l1)
                   (map (fun q => num_add (Fin 0) (g q)) l2)
  = zip_with num_div (map f l1) (map g l2).
Proof.
  revert l2. induction l1 as [|p l1 IH]; intros [|q l2]; try reflexivity.
  cbn [map zip_with]. rewrite num_div_add0, IH. reflexivity.
Qed.

Lemma np_nanmean_skip_nan (l : list num) :
  np_nanmean (NaN :: l) = np_nanmean l.
Proof. reflexivity. Qed.

(** ** Average time between labels *)

Lemma collect_loop (lab : Z) (lrest : list Z) :
  forall (trest : list num) (lpre : list Z) (tpre acc : list num),
    length trest = length lrest ->
    length tpre = length lpre ->
    for_loop (seq (length lpre) (length lrest))
      (Metrics.collect_step (lpre ++ lrest) (tpre ++ trest) lab) acc
    = Ok (acc ++ occurrences lrest trest lab).
Proof.
  induction lrest as [|l lrest IH]; intros trest lpre tpre acc Ht Hp.
  - cbn. rewrite app_nil_r. reflexivity.
  - destruct trest as [|t trest]; [discriminate Ht|]. injection Ht as Ht.
    cbn [length seq for_loop occurrences].
    unfold Metrics.collect_step at 1. rewrite get_middle. cbn [rbind].
    assert (G : get (tpre ++ t :: trest) (length lpre) = Ok t)
      by (rewrite <- Hp; apply get_middle).
    replace (lpre ++ l :: lrest) with ((lpre ++ [l]) ++ lrest)
      by (rewrite <- app_assoc; reflexivity).
    replace (tpre ++ t :: trest) with ((tpre ++ [t]) ++ trest) in *
      by (rewrite <- app_assoc; reflexivity).
    replace (S (length lpre)) with (length (lpre ++ [l]))
      by (rewrite length_app; cbn; lia).
    assert (Hp' : length (tpre ++ [t]) = length (lpre ++ [l]))
      by (rewrite !length_app; cbn; lia).
    destruct (l =? lab).
    + rewrite G. cbn [rbind]. rewrite (IH trest _ _ _ Ht Hp').
      rewrite <- app_assoc. reflexivity.
    + cbn [rbind]. apply (IH trest _ _ _ Ht Hp').
Qed.

Lemma deletion_loop (v : num) (rest : list num) :
  forall (pre : list num) (acc : list nat),
    for_loop (seq (length pre) (length rest))
      (Metrics.deletion_step (NpFloat v) (pre ++ rest)) acc
    = Ok (acc ++ positions (fun g => np_isclose g (num_div (Fin 1) v))
                           (length pre) rest).
Proof.
  induction rest as [|g rest IH]; intros pre acc.
  - cbn. rewrite app_nil_r. reflexivity.
  - cbn [length seq for_loop positions].
    unfold Metrics.deletion_step at 1. rewrite get_middle. cbn [rbind].
    rewrite py_truediv_np_r. cbn [rbind scalar_val].
    change (num_of_Z 1) with (Fin 1).
    replace (pre ++ g :: rest) with ((pre ++ [g]) ++ rest)
      by (rewrite <- app_assoc; reflexivity).
    replace (S (length pre)) with (length (pre ++ [g]))
      by (rewrite length_app; cbn; lia).
    destruct (np_isclose g (num_div (Fin 1) v)); cbn [rbind].
    + rewrite IH, <- app_assoc. reflexivity.
    + apply IH.
Qed.

Lemma positions_ge (P : num -> bool) (l : list num) (start i : nat) :
  In i (positions P start l) -> (start <= i)%nat.
Proof.
  revert start. induction l as [|g l IH]; intros start; [intros []|].
  cbn [positions]. destruct (P g).
  - intros [<-|H]; [lia|]. apply IH in H. lia.
  - intros H. apply IH in H. lia.
Qed.

Lemma existsb_positions_out (P : num -> bool) (l : list num)
    (start i : nat) (pre : list nat) :
  (i < start)%nat ->
  existsb (Nat.eqb i) (pre ++ positions P start l)
  = existsb (Nat.eqb i) pre.
Proof.
  intros Hi. rewrite existsb_app.
  destruct (existsb (Nat.eqb i) (positions P start l)) eqn:E.
  - apply existsb_exists in E. destruct E as [j [Hj Ej]].
    apply Nat.eqb_eq in Ej. subst j. apply positions_ge in Hj. lia.
  - apply orb_false_r.
Qed.

Lemma np_delete_positions (P : num -> bool) (l : list num) :
  forall (start : nat) (pre : list nat),
    (forall i, In i pre -> (i < start)%nat) ->
    map snd (List.filter
               (fun p => negb (existsb (Nat.eqb (fst p))
                                 (pre ++ positions P start l)))
               (combine (seq start (length l)) l))
    = List.filter (fun g => negb (P g)) l.
Proof.
  induction l as [|g l IH]; intros start pre Hpre; [reflexivity|].
  cbn [length seq combine List.filter positions fst].
  assert (Hhead : existsb (Nat.eqb start)
                    (pre ++ (if P g then start :: positions P (S start) l
                             else positions P (S start) l)) = P g).
  { assert (Hpre0 : existsb (Nat.eqb start) pre = false).
    { destruct (existsb (Nat.eqb start) pre) eqn:E; [|reflexivity].
      apply existsb_exists in E. destruct E as [j [Hj Ej]].
      apply Nat.eqb_eq in Ej. subst j. apply Hpre in Hj. lia. }
    destruct (P g).
    - rewrite existsb_app. cbn [existsb]. rewrite Nat.eqb_refl.
      rewrite orb_true_l. apply orb_true_r.
    - rewrite (existsb_positions_out P l (S start) start pre) by lia.
      exact Hpre0. }
  destruct (P g) eqn:EP.
  - rewrite Hhead. cbn [negb].
    replace (pre ++ start :: positions P (S start) l)
      with ((pre ++ [start]) ++ positions P (S start) l)
      by (rewrite <- app_assoc; reflexivity).
    apply IH. intros i Hi. apply in_app_or in Hi.
    destruct Hi as [Hi|[<-|[]]]; [apply Hpre in Hi|]; lia.
  - rewrite Hhead. cbn [negb map snd]. f_equal.
    apply IH. intros i Hi. apply Hpre in Hi. lia.
Qed.

(** One iteration of the outer loop stores the average of the label of
    sample number [idx_outer]. *)
Lemma label_step_spec (labels : list Z) (timestamps : list num)
    (normalise : bool) (v : num) (idx_outer : nat) (lab : Z)
    (average_per_label : list num) :
  length timestamps = length labels ->
  get labels idx_outer = Ok lab ->
  Metrics.label_step labels timestamps normalise (NpFloat v) idx_outer
                     average_per_label
  = Ok (<[idx_outer :=
            label_average labels timestamps normalise
                          (num_div (Fin 1) v) lab]> average_per_label).
Proof.
  intros Hlen Hget. unfold Metrics.label_step. rewrite Hget. cbn [rbind].
  unfold py_range. rewrite Nat.sub_0_r.
  pose proof (collect_loop lab labels timestamps [] [] [] Hlen eq_refl) as C.
  cbn [app length] in C. rewrite C. clear C.
  cbn [rbind app]. cbv zeta. unfold label_average. cbv zeta.
  set (gaps := np_diff (occurrences labels timestamps lab)).
  destruct normalise.
  - rewrite Nat.sub_0_r.
    pose proof (deletion_loop v gaps [] []) as D.
    cbn [app length] in D. rewrite D. clear D.
    cbn [rbind app length]. unfold np_delete.
    pose proof (np_delete_positions
                  (fun g => np_isclose g (num_div (Fin 1) v)) gaps 0 []) as N.
    cbn [app] in N. rewrite N by (intros i []). clear N.
    destruct (List.filter _ gaps); reflexivity.
  - cbn [rbind]. destruct gaps; reflexivity.
Qed.

Lemma outer_loop (labels : list Z) (timestamps : list num)
    (normalise : bool) (v : num) (todo : list Z) :
  forall (done extra : list Z) (vals : list num),
    labels = done ++ todo ++ extra ->
    length timestamps = length labels ->
    length vals = length done ->
    for_loop (seq (length done) (length todo))
      (Metrics.label_step labels timestamps normalise (NpFloat v))
      (vals ++ replicate (length todo) (Fin 0))
    = Ok (vals ++ map (label_average labels timestamps normalise
                                     (num_div (Fin 1) v)) todo).
Proof.
  induction todo as [|lab todo IH]; intros done extra vals El Hlen Hv.
  - reflexivity.
  - cbn [length seq for_loop replicate map].
    rewrite (label_step_spec labels timestamps normalise v
               (length done) lab _ Hlen).
    2:{ rewrite El. apply (get_middle done lab (todo ++ extra)). }
    cbn [rbind]. rewrite <- Hv, insert_middle.
    replace (S (length vals))
      with (length (done ++ [lab])) by (rewrite length_app; cbn; lia).
    set (a := label_average labels timestamps normalise
                            (num_div (Fin 1) v) lab).
    replace (vals ++ a :: replicate (length todo) (Fin 0))
      with ((vals ++ [a]) ++ replicate (length todo) (Fin 0))
      by (rewrite <- app_assoc; reflexivity).
    rewrite (IH (done ++ [lab]) extra (vals ++ [a])).
    + rewrite <- app_assoc. reflexivity.
    + rewrite El, <- app_assoc. reflexivity.
    + exact Hlen.
    + rewrite !length_app. cbn. lia.
Qed.

Lemma insert_unique_length (z : Z) (l : list Z) :
  (length (insert_unique z l) <= S (length l))%nat.
Proof.
  induction l as [|y l IH]; cbn; [lia|].
  destruct (z <? y); [cbn; lia|]. destruct (z =? y); cbn; lia.
Qed.

Lemma np_unique_length (l : list Z) :
  (length (np_unique l) <= length l)%nat.
Proof.
  induction l as [|z l IH]; cbn; [lia|].
  pose proof (insert_unique_length z (np_unique l)). unfold np_unique in *.
  lia.
Qed.

(** What [average_time_between_labels] computes: entry number [i] is the
    average for the label of sample number [i], for the first [k] samples,
    [k] being the number of distinct labels. *)
Lemma average_time_follows_sample_order (labels : list Z)
    (timestamps : list num) (normalise : bool) :
  length timestamps = length labels ->
  small_deltas timestamps <> [] ->
  Metrics.average_time_between_labels labels timestamps normalise
  = Ok (map (label_average labels timestamps normalise
               (num_div (Fin 1) (reciprocal_mean_delta timestamps)))
            (take (length (np_unique labels)) labels)).
Proof.
  intros Hlen Hsmall. unfold Metrics.average_time_between_labels. cbv zeta.
  rewrite (estimator_value timestamps Hsmall). cbn [rbind].
  unfold py_range. rewrite Nat.sub_0_r.
  set (k := length (np_unique labels)).
  assert (Hk : (k <= length labels)%nat) by apply np_unique_length.
  pose proof (outer_loop labels timestamps normalise
                (reciprocal_mean_delta timestamps) (take k labels)
                [] (drop k labels) []) as L.
  rewrite length_take in L. replace (k `min` length labels)%nat with k in L
    by lia.
  cbn [app length] in L. apply L; [|exact Hlen|reflexivity].
  symmetry. apply take_drop.
Qed.

(** C2: on the labels [[0, 0, 1]] with timestamps [[0, 10, 20]] the
    distinct labels are 0 and 1; label 0 has the single gap 10 and label 1
    occurs once, so the entries should be 10 and 0.  The outer loop reads
    [labels_[idx_outer]] instead of [unique_lab[idx_outer]]: its second
    iteration handles label 0 again and the second entry is 10. *)
Theorem average_time_second_entry_repeats_first_label :
  Metrics.average_time_between_labels [0; 0; 1] (nums [0; 10; 20]) true
  = Ok [Fin 10; Fin 10]
  /\ averages_per_distinct_label [0; 0; 1] (nums [0; 10; 20]) true
     = [Fin 10; Fin 0].
Proof. split; vm_compute; reflexivity. Qed.

(** * Further properties *)

(** ** The window slider: shape of the windows *)

Lemma py_adjust_range (n i : Z) : 0 <= n -> 0 <= py_adjust n i <= n.
Proof. intros Hn. unfold py_adjust. destruct (Z.ltb_spec i 0); lia. Qed.

Lemma py_slice_length {A} (x : list A) (a b : Z) :
  (length (py_slice x a b)
   <= Z.to_nat (py_adjust (Z.of_nat (length x)) b
                - py_adjust (Z.of_nat (length x)) a))%nat.
Proof. unfold py_slice. cbv zeta. rewrite length_take. lia. Qed.

Lemma nd_len_slice (x : ndarray) (a b : Z) :
  (nd_len (nd_slice x a b)
   <= Z.to_nat (py_adjust (Z.of_nat (nd_len x)) b
                - py_adjust (Z.of_nat (nd_len x)) a))%nat.
Proof. destruct x; cbn [nd_len nd_slice]; apply py_slice_length. Qed.

Lemma filter_length_bound {A} (f : A -> bool) (l : list A) :
  (length (List.filter f l) <= length l)%nat.
Proof.
  induction l as [|a l IH]; [reflexivity|]. cbn [List.filter].
  destruct (f a); cbn [length]; lia.
Qed.

Lemma nd_len_dropna (w : ndarray) : (nd_len (nd_dropna w) <= nd_len w)%nat.
Proof. destruct w; cbn [nd_len nd_dropna]; apply filter_length_bound. Qed.

(** The guard [len(window) > 0] changes nothing: filtering an empty window
    leaves it empty. *)
Lemma dropna_guard (w : ndarray) :
  (if (0 <? nd_len w)%nat then nd_dropna w else w) = nd_dropna w.
Proof.
  destruct (Nat.ltb_spec 0 (nd_len w)) as [H|H]; [reflexivity|].
  destruct w as [[|a v]|[|r rows]]; cbn in H; try lia; reflexivity.
Qed.

Lemma slide_window (s : Slider) (x : ndarray) (u : bool) :
  fst (Transforms.slide s x u)
  = nd_dropna (nd_slice x (current_position s - window_length s)
                          (current_position s)).
Proof. unfold Transforms.slide. cbv zeta. cbn [fst]. apply dropna_guard. Qed.

Lemma nd_dropna_complete (w : ndarray) : nd_complete (nd_dropna w).
Proof.
  destruct w; cbn [nd_dropna nd_complete]; apply List.Forall_forall;
    intros a Ha; apply filter_In in Ha; destruct Ha as [_ Ha];
    apply negb_true_iff in Ha; exact Ha.
Qed.

Lemma slide_at_zero_empty (s : Slider) (x : ndarray) (u : bool) :
  current_position s = 0 ->
  nd_len (fst (Transforms.slide s x u)) = 0%nat.
Proof.
  intros Hs. rewrite slide_window.
  pose proof (nd_len_dropna (nd_slice x (current_position s
    - window_length s) (current_position s))) as H1.
  pose proof (nd_len_slice x (current_position s - window_length s)
                (current_position s)) as H2.
  pose proof (py_adjust_range (Z.of_nat (nd_len x))
                (current_position s - window_length s)
                (Nat2Z.is_nonneg _)) as H3.
  rewrite Hs in *. unfold py_adjust at 1 in H2. cbn [Z.ltb Z.compare] in H2.
  lia.
Qed.

(** X1: the first call after construction returns an empty window, for
    every window length, overlap and backing sequence: the cursor starts at
    0 and the slice stops at 0.  For [Metrics] this holds whenever the
    constructor returns. *)
Theorem slide_first_call_empty :
  (forall wl ov x u,
     nd_len (fst (Transforms.slide (Transforms.init wl ov) x u)) = 0%nat)
  /\ (forall timestamps d ov s x u,
        Metrics.init timestamps d ov = Ok s ->
        nd_len (fst (Metrics.slide s x u)) = 0%nat).
Proof.
  split.
  - intros wl ov x u. apply slide_at_zero_empty. reflexivity.
  - intros timestamps d ov s x u Hs. rewrite Metrics_slide_eq.
    apply slide_at_zero_empty. unfold Metrics.init in Hs.
    destruct (Metrics.establish_sampling_frequency timestamps);
      cbn [rbind] in Hs; [|discriminate Hs].
    destruct (py_truediv d _); cbn [rbind] in Hs; [|discriminate Hs].
    cbv zeta in Hs. destruct (py_int _); cbn [rbind] in Hs;
      [|discriminate Hs].
    injection Hs as <-. reflexivity.
Qed.

Lemma slide_first_call_empty_witness :
  nd_len (fst (Metrics.slide (mkSlider 60 0 1)
                             (Vec (nums [1; 2; 3])) true)) = 0%nat.
Proof.
  apply (proj2 slide_first_call_empty (nums [0; 1; 2; 3]) (PyInt 60) 1).
  vm_compute. reflexivity.
Defined.

(** X2: for a cursor that is not negative, whatever the backing sequence,
    a window never has more entries than [window_length] (none when it is
    negative). *)
Theorem slide_window_at_most_window_length
    (s : Slider) (x : ndarray) (u : bool) :
  0 <= current_position s ->
  Z.of_nat (nd_len (fst (Transforms.slide s x u)))
  <= Z.max 0 (window_length s)
  /\ Z.of_nat (nd_len (fst (Metrics.slide s x u)))
     <= Z.max 0 (window_length s).
Proof.
  intros Hpos. rewrite Metrics_slide_eq, slide_window.
  pose proof (nd_len_dropna (nd_slice x (current_position s
    - window_length s) (current_position s))) as H1.
  pose proof (nd_len_slice x (current_position s - window_length s)
                (current_position s)) as H2.
  assert (H3 : py_adjust (Z.of_nat (nd_len x)) (current_position s)
               - py_adjust (Z.of_nat (nd_len x))
                   (current_position s - window_length s)
               <= Z.max 0 (window_length s)).
  { unfold py_adjust.
    destruct (Z.ltb_spec (current_position s) 0);
      destruct (Z.ltb_spec (current_position s - window_length s) 0); lia. }
  lia.
Qed.

Lemma slide_window_at_most_window_length_witness :
  Z.of_nat (nd_len (fst (Transforms.slide (mkSlider 2 3 1)
                           (Vec (nums [1; 2; 3; 4])) true)))
  <= Z.max 0 2
  /\ Z.of_nat (nd_len (fst (Metrics.slide (mkSlider 2 3 1)
                              (Vec (nums [1; 2; 3; 4])) true)))
     <= Z.max 0 2.
Proof.
  apply (slide_window_at_most_window_length (mkSlider 2 3 1)
           (Vec (nums [1; 2; 3; 4])) true).
  cbn. lia.
Defined.

(** X3: the window handed out contains no missing value: no NaN entry in a
    1-D window, no row with a NaN entry in a 2-D window. *)
Theorem slide_window_has_no_missing_value
    (s : Slider) (x : ndarray) (u : bool) :
  nd_complete (fst (Transforms.slide s x u))
  /\ nd_complete (fst (Metrics.slide s x u)).
Proof.
  rewrite Metrics_slide_eq, slide_window. split; apply nd_dropna_complete.
Qed.

(** X4: once the window start [current_position - window_length] has
    reached the end of the backing sequence, this call and, with a
    non-negative overlap, every later call returns an empty window; no
    error is raised. *)
Theorem slide_past_the_end_stays_empty
    (s : Slider) (x : ndarray) (k : nat) (u : bool) :
  0 <= window_overlap s ->
  Z.of_nat (nd_len x) <= current_position s - window_length s ->
  nd_len (fst (Transforms.slide
                 (at_position s (current_position s
                                 + Z.of_nat k * window_overlap s)) x u))
  = 0%nat
  /\ nd_len (fst (Metrics.slide
                    (at_position s (current_position s
                                    + Z.of_nat k * window_overlap s)) x u))
     = 0%nat.
Proof.
  intros Hov Hend. rewrite Metrics_slide_eq, slide_window.
  set (p := current_position s + Z.of_nat k * window_overlap s).
  cbn [at_position current_position window_length].
  pose proof (nd_len_dropna (nd_slice x (p - window_length s) p)) as H1.
  pose proof (nd_len_slice x (p - window_length s) p) as H2.
  assert (H3 : py_adjust (Z.of_nat (nd_len x)) p
               - py_adjust (Z.of_nat (nd_len x)) (p - window_length s)
               <= 0).
  { assert (Hp : current_position s <= p) by (subst p; nia).
    unfold py_adjust.
    destruct (Z.ltb_spec p 0);
      destruct (Z.ltb_spec (p - window_length s) 0); lia. }
  lia.
Qed.

Lemma slide_past_the_end_stays_empty_witness :
  nd_len (fst (Transforms.slide
                 (at_position (mkSlider 2 5 1) (5 + Z.of_nat 3 * 1))
                 (Vec (nums [1; 2; 3])) true)) = 0%nat
  /\ nd_len (fst (Metrics.slide
                    (at_position (mkSlider 2 5 1) (5 + Z.of_nat 3 * 1))
                    (Vec (nums [1; 2; 3])) true)) = 0%nat.
Proof.
  apply (slide_past_the_end_stays_empty (mkSlider 2 5 1)
           (Vec (nums [1; 2; 3])) 3 true); cbn; lia.
Defined.

(** ** The window slider: consecutive windows *)

Lemma slides_cons (s : Slider) (x : ndarray) (xs : list ndarray) :
  fst (slides Transforms.slide s (x :: xs))
  = fst (Transforms.slide s x true)
    :: fst (slides Transforms.slide (advance s) xs).
Proof.
  cbn [slides]. destruct (Transforms.slide s x true) as [w s1] eqn:E.
  assert (Es : s1 = advance s)
    by (pose proof (slide_state s x true) as H; rewrite E in H; exact H).
  subst s1. destruct (slides Transforms.slide (advance s) xs). reflexivity.
Qed.

Lemma py_slice_inner {A} (x : list A) (a b : Z) :
  0 <= a <= b -> b <= Z.of_nat (length x) ->
  py_slice x a b = take (Z.to_nat (b - a)) (drop (Z.to_nat a) x).
Proof.
  intros Hab Hb. unfold py_slice, py_adjust. cbv zeta.
  destruct (Z.ltb_spec a 0); [lia|]. destruct (Z.ltb_spec b 0); [lia|].
  rewrite !Z.min_l by lia. reflexivity.
Qed.

Lemma tiles_from (l : nat) (v : list num) (m : nat) :
  forall k : nat,
    (0 < l)%nat ->
    (1 <= k)%nat ->
    ((k - 1 + m) * l <= length v)%nat ->
    concat (map vec_of
              (fst (slides Transforms.slide
                      (mkSlider (Z.of_nat l) (Z.of_nat (k * l)) (Z.of_nat l))
                      (replicate m (Vec v)))))
    = dropna (take (m * l) (drop ((k - 1) * l) v)).
Proof.
  induction m as [|m IH]; intros k Hl Hk Hlen; [reflexivity|].
  cbn [replicate]. rewrite slides_cons. cbn [map concat].
  rewrite slide_window.
  cbn [current_position window_length nd_slice nd_dropna vec_of].
  rewrite py_slice_inner by nia.
  replace (Z.to_nat (Z.of_nat (k * l) - (Z.of_nat (k * l) - Z.of_nat l)))
    with l by lia.
  replace (Z.to_nat (Z.of_nat (k * l) - Z.of_nat l))
    with ((k - 1) * l)%nat by nia.
  replace (advance (mkSlider (Z.of_nat l) (Z.of_nat (k * l)) (Z.of_nat l)))
    with (mkSlider (Z.of_nat l) (Z.of_nat (S k * l)) (Z.of_nat l))
    by (unfold advance; cbn [window_length current_position window_overlap];
        f_equal; lia).
  rewrite (IH (S k) Hl) by nia.
  replace (S k - 1)%nat with k by lia.
  fold (dropna (take l (drop ((k - 1) * l) v))).
  unfold dropna. rewrite <- List.filter_app. f_equal.
  replace (drop (k * l) v) with (drop l (drop ((k - 1) * l) v))
    by (rewrite drop_drop; f_equal; nia).
  rewrite take_take_drop. f_equal.
Qed.

(** X5: with the overlap equal to the window length [l > 0], the first
    call returns nothing and the following [m] calls return consecutive,
    disjoint chunks of the backing sequence: joined together they are the
    first [m * l] values with the NaN entries removed, as long as
    [m * l] does not exceed the length of the sequence. *)
Theorem slide_full_step_tiles_sequence (l m : nat) (v : list num) :
  (0 < l)%nat ->
  (m * l <= length v)%nat ->
  concat (map vec_of
            (fst (slides Transforms.slide
                    (Transforms.init (Z.of_nat l) (Z.of_nat l))
                    (replicate (S m) (Vec v)))))
  = dropna (take (m * l) v)
  /\ slides Metrics.slide (mkSlider (Z.of_nat l) 0 (Z.of_nat l))
            (replicate (S m) (Vec v))
     = slides Transforms.slide (Transforms.init (Z.of_nat l) (Z.of_nat l))
              (replicate (S m) (Vec v)).
Proof.
  intros Hl Hlen. rewrite Metrics_slide_eq. split; [|reflexivity].
  cbn [replicate]. rewrite slides_cons. cbn [map concat].
  assert (E0 : vec_of (fst (Transforms.slide
                 (Transforms.init (Z.of_nat l) (Z.of_nat l)) (Vec v) true))
               = []).
  { pose proof (slide_at_zero_empty
                  (Transforms.init (Z.of_nat l) (Z.of_nat l)) (Vec v) true
                  eq_refl) as H.
    destruct (fst _) as [w|r]; [|reflexivity]. cbn in H.
    destruct w; [reflexivity|discriminate H]. }
  rewrite E0. cbn [app].
  replace (advance (Transforms.init (Z.of_nat l) (Z.of_nat l)))
    with (mkSlider (Z.of_nat l) (Z.of_nat (1 * l)) (Z.of_nat l))
    by (unfold advance, Transforms.init;
        cbn [window_length current_position window_overlap]; f_equal; lia).
  rewrite (tiles_from l v m 1 Hl) by lia.
  reflexivity.
Qed.

Lemma slide_full_step_tiles_sequence_witness :
  concat (map vec_of
            (fst (slides Transforms.slide
                    (Transforms.init (Z.of_nat 2) (Z.of_nat 2))
                    (replicate 3 (Vec [Fin 1; NaN; Fin 3; Fin 4; Fin 5])))))
  = dropna (take (2 * 2) [Fin 1; NaN; Fin 3; Fin 4; Fin 5])
  /\ slides Metrics.slide (mkSlider (Z.of_nat 2) 0 (Z.of_nat 2))
            (replicate 3 (Vec [Fin 1; NaN; Fin 3; Fin 4; Fin 5]))
     = slides Transforms.slide (Transforms.init (Z.of_nat 2) (Z.of_nat 2))
              (replicate 3 (Vec [Fin 1; NaN; Fin 3; Fin 4; Fin 5])).
Proof.
  apply (slide_full_step_tiles_sequence 2 2
           [Fin 1; NaN; Fin 3; Fin 4; Fin 5]); cbn; lia.
Defined.

(** ** The sampling-frequency estimator: when it fails, what it returns *)

Lemma has_value_add (a b : num) (x y : Q) :
  has_value a x -> has_value b y -> has_value (num_add a b) (x + y).
Proof.
  intros [x' [-> Hx]] [y' [-> Hy]]. eexists. split; [reflexivity|].
  rewrite Qred_correct, Hx, Hy. reflexivity.
Qed.

Lemma has_value_sub (a b : num) (x y : Q) :
  has_value a x -> has_value b y -> has_value (num_sub a b) (x - y).
Proof.
  intros [x' [-> Hx]] [y' [-> Hy]]. eexists. split; [reflexivity|].
  rewrite !Qred_correct, Hx, Hy. reflexivity.
Qed.

Lemma has_value_mul (a b : num) (x y : Q) :
  has_value a x -> has_value b y -> has_value (num_mul a b) (x * y).
Proof.
  intros [x' [-> Hx]] [y' [-> Hy]]. eexists. split; [reflexivity|].
  rewrite Qred_correct, Hx, Hy. reflexivity.
Qed.

Lemma has_value_div (a b : num) (x y : Q) :
  ~ (y == 0)%Q ->
  has_value a x -> has_value b y -> has_value (num_div a b) (x / y).
Proof.
  intros Hy0 [x' [-> Hx]] [y' [-> Hy]]. unfold num_div.
  rewrite (Qis0_comp y' y Hy). unfold Qis0.
  destruct (Qeq_bool y 0) eqn:E; [apply Qeq_bool_iff in E; tauto|].
  eexists. split; [reflexivity|]. rewrite Qred_correct, Hx, Hy. reflexivity.
Qed.

Lemma has_value_sum (h : Q) (l : list num) :
  forall (acc : num) (a : Q),
    has_value acc a ->
    Forall (fun d => has_value d h) l ->
    has_value (fold_left num_add l acc)
              (a + inject_Z (Z.of_nat (length l)) * h).
Proof.
  induction l as [|d l IH]; intros acc a Ha Hl.
  - destruct Ha as [a' [-> Ha]]. exists a'. split; [reflexivity|].
    cbn [length]. rewrite Ha. change (inject_Z (Z.of_nat 0)) with 0%Q. ring.
  - inversion Hl as [|? ? Hd Hl']; subst. cbn [fold_left].
    destruct (IH (num_add acc d) (a + h)%Q (has_value_add _ _ _ _ Ha Hd) Hl')
      as [q [E Hq]].
    exists q. split; [exact E|]. rewrite Hq. cbn [length].
    rewrite Nat2Z.inj_succ, <- Z.add_1_r, inject_Z_plus.
    change (inject_Z 1) with 1%Q. ring.
Qed.

Lemma filter_keeps_all {A} (f : A -> bool) (l : list A) :
  Forall (fun a => f a = true) l -> List.filter f l = l.
Proof.
  induction 1 as [|a l Ha _ IH]; [reflexivity|].
  cbn [List.filter]. rewrite Ha, IH. reflexivity.
Qed.

Lemma np_diff_length (l : list num) :
  length (np_diff l) = (length l - 1)%nat.
Proof.
  induction l as [|a [|b l] IH]; [reflexivity|reflexivity|].
  change (np_diff (a :: b :: l)) with (num_sub b a :: np_diff (b :: l)).
  cbn [length] in *. lia.
Qed.

Lemma regular_deltas (t0 h : Q) (n i : nat) :
  Forall (fun d => has_value d h) (np_diff (regular_from t0 h i n)).
Proof.
  revert i. induction n as [|n IH]; intros i; [constructor|].
  destruct n as [|n]; [constructor|].
  specialize (IH (S i)). unfold regular_from in *. cbn [seq map] in *.
  change (np_diff (?a :: ?b :: ?l)) with (num_sub b a :: np_diff (b :: l)).
  constructor; [|exact IH].
  eexists. split; [reflexivity|]. rewrite !Qred_correct.
  rewrite Nat2Z.inj_succ, <- Z.add_1_r, inject_Z_plus.
  change (inject_Z 1) with 1%Q. ring.
Qed.

Lemma estimator_raises_of_no_small_delta (timestamps : list num) :
  small_deltas timestamps = [] ->
  Metrics.establish_sampling_frequency timestamps = Raise ZeroDivisionError.
Proof.
  intros E. unfold Metrics.establish_sampling_frequency. cbv zeta.
  rewrite accumulate_all, accumulated, E. cbn [rbind].
  rewrite py_truediv_int_int.
  destruct (num_eqb (num_of_Z (Z.of_nat (length timestamps))) (Fin 0))
    eqn:En; [reflexivity|].
  cbn [rbind]. rewrite py_truediv_int_float.
  change (num_of_Z 0) with (Fin 0). rewrite (zero_over_count _ En).
  reflexivity.
Qed.

(** X6: the estimator fails exactly when no successive delta is below the
    threshold (in particular on fewer than two timestamps); the only
    exception it raises is [ZeroDivisionError], and what it returns is a
    NumPy scalar. *)
Theorem estimator_fails_exactly_without_small_delta
    (timestamps : list num) :
  (Metrics.establish_sampling_frequency timestamps = Raise ZeroDivisionError
   <-> small_deltas timestamps = [])
  /\ (forall e, Metrics.establish_sampling_frequency timestamps = Raise e ->
                e = ZeroDivisionError)
  /\ (forall f, Metrics.establish_sampling_frequency timestamps = Ok f ->
                f = NpFloat (reciprocal_mean_delta timestamps))
  /\ ((length timestamps < 2)%nat ->
      Metrics.establish_sampling_frequency timestamps
      = Raise ZeroDivisionError).
Proof.
  destruct (small_deltas timestamps) as [|d l] eqn:E.
  - pose proof (estimator_raises_of_no_small_delta timestamps E) as H.
    rewrite H. repeat split; try congruence.
  - assert (Hne : small_deltas timestamps <> []) by (rewrite E; discriminate).
    pose proof (estimator_value timestamps Hne) as H. rewrite H.
    repeat split; try congruence.
    intros Hlen. exfalso.
    assert (Hd : np_diff timestamps = []).
    { destruct timestamps as [|a [|b r]]; cbn in Hlen; try reflexivity.
      lia. }
    unfold small_deltas in E. rewrite Hd in E. discriminate E.
Qed.

(** X7: on [n >= 2] timestamps spaced regularly by [h], [0 < h < 100],
    the estimator returns [n / ((n - 1) * h)]: the true frequency [1 / h]
    multiplied by [n / (n - 1)], because the [n - 1] deltas are divided by
    the [n] timestamps. *)
Theorem estimator_on_regular_sampling (t0 h : Q) (n : nat) :
  (0 < h)%Q -> (h < 100)%Q -> (2 <= n)%nat ->
  exists q,
    Metrics.establish_sampling_frequency (regular t0 h n)
    = Ok (NpFloat (Fin q))
    /\ (q == inject_Z (Z.of_nat n) / (inject_Z (Z.of_nat n - 1) * h))%Q.
Proof.
  intros Hh Hh100 Hn.
  pose proof (regular_deltas t0 h n 0) as Hd. fold (regular t0 h n) in Hd.
  assert (Hlen : length (regular t0 h n) = n)
    by (unfold regular, regular_from; rewrite length_map, length_seq;
        reflexivity).
  assert (Hsmall : small_deltas (regular t0 h n) = np_diff (regular t0 h n)).
  { apply filter_keeps_all. eapply Forall_impl; [exact Hd|].
    intros d [q [-> Hq]]. cbn. unfold Qltb.
    destruct (Qle_bool 100 q) eqn:E; [|reflexivity].
    apply Qle_bool_iff in E. lra. }
  destruct (has_value_sum h (np_diff (regular t0 h n)) (Fin 0) 0%Q)
    as [s [Es Hs]]; [exists 0%Q; split; reflexivity|exact Hd|].
  rewrite np_diff_length, Hlen in Hs.
  assert (Hs' : (s == inject_Z (Z.of_nat n - 1) * h)%Q).
  { rewrite Hs. replace (Z.of_nat (n - 1)) with (Z.of_nat n - 1) by lia.
    ring. }
  assert (Hpos : (0 < inject_Z (Z.of_nat n - 1))%Q).
  { unfold Qlt. cbn. lia. }
  assert (Hs0 : ~ (s == 0)%Q).
  { rewrite Hs'. intros H0. apply Qmult_integral in H0. lra. }
  assert (Hne : regular t0 h n <> []).
  { intros H0. rewrite H0 in Hlen. cbn in Hlen. lia. }
  assert (Hsum : num_sum (small_deltas (regular t0 h n)) = Fin s)
    by (rewrite Hsmall; exact Es).
  destruct (reciprocal_mean_delta_finite _ s Hne Hsum Hs0) as [q [Eq Hq]].
  exists q. split.
  - rewrite estimator_value, Eq; [reflexivity|].
    rewrite Hsmall. intros H0.
    pose proof (np_diff_length (regular t0 h n)) as Hl.
    rewrite H0, Hlen in Hl. cbn in Hl. lia.
  - rewrite Hq, Hlen, Hs'. reflexivity.
Qed.

Lemma estimator_on_regular_sampling_witness :
  exists q,
    Metrics.establish_sampling_frequency (regular 5 2 4) = Ok (NpFloat (Fin q))
    /\ (q == inject_Z (Z.of_nat 4) / (inject_Z (Z.of_nat 4 - 1) * 2))%Q.
Proof.
  apply (estimator_on_regular_sampling 5 2 4); [reflexivity|reflexivity|lia].
Defined.

(** ** Window length derivation: the two regimes *)

Lemma derived_length_ceiling (wl : Z) (r : Q) :
  derived_length wl r -> wl = Qceiling r.
Proof.
  intros [He Hn].
  destruct (Qeq_dec (r - 2 * inject_Z (Qfloor (r / 2))) 0) as [E|E].
  - apply mod2_zero_even in E. rewrite (He E). destruct E as [k Ek].
    rewrite Ek, Qfloor_Z, Qceiling_Z. reflexivity.
  - apply Hn. intros H. apply E. apply mod2_zero_even. exact H.
Qed.

Lemma init_value (timestamps : list num) (aggregation_duration : scalar)
    (d : Q) (window_overlap : Z) (f : scalar) :
  Metrics.establish_sampling_frequency timestamps = Ok f ->
  num_leb (Fin 1) (scalar_val f) = true ->
  scalar_val aggregation_duration = Fin d ->
  Metrics.init timestamps aggregation_duration window_overlap
  = Ok (mkSlider (Qceiling (duration_ratio d (scalar_val f)))
                 0 window_overlap).
Proof.
  intros Hf Hge Hd. unfold Metrics.init. rewrite Hf. cbn [rbind].
  rewrite py_truediv_np_r, Hd. cbn [rbind scalar_val]. cbv zeta.
  destruct (scalar_val f) as [q| | |] eqn:Ev; cbn in Hge; try discriminate.
  - apply Qle_bool_iff in Hge.
    assert (Hfl : (1 <= Qfloor q)%Z).
    { rewrite <- (Qfloor_Z 1). apply Qfloor_resp_le. exact Hge. }
    cbn [num_floor duration_ratio]. unfold num_div, num_of_Z.
    assert (Hz : Qis0 (inject_Z (Qfloor q)) = false).
    { unfold Qis0. destruct (Qeq_bool _ 0) eqn:E; [|reflexivity].
      apply Qeq_bool_iff in E. unfold Qeq in E. cbn in E. lia. }
    rewrite Hz.
    destruct (round_ratio (d / inject_Z (Qfloor q))) as [wl [E D]].
    rewrite E. cbn [rbind]. rewrite (derived_length_ceiling wl _ D).
    reflexivity.
  - reflexivity.
Qed.

(** X8: for an estimated frequency [f >= 1] the derived window length is
    always the ceiling of [d / floor(f)]: the parity test of line 22 makes
    no difference, an odd integer ratio stays odd, and the length is the
    ratio rounded up, at least the ratio and less than one above it. *)
Theorem init_window_length_is_ceiling
    (timestamps : list num) (aggregation_duration : scalar) (d : Q)
    (window_overlap : Z) (f : scalar) :
  Metrics.establish_sampling_frequency timestamps = Ok f ->
  num_leb (Fin 1) (scalar_val f) = true ->
  scalar_val aggregation_duration = Fin d ->
  let r := duration_ratio d (scalar_val f) in
  Metrics.init timestamps aggregation_duration window_overlap
  = Ok (mkSlider (Qceiling r) 0 window_overlap)
  /\ (r <= inject_Z (Qceiling r))%Q
  /\ (inject_Z (Qceiling r) < r + 1)%Q.
Proof.
  intros Hf Hge Hd r. split; [apply init_value; assumption|]. split.
  - apply Qle_ceiling.
  - pose proof (Qceiling_lt r) as H. unfold Z.sub in H.
    rewrite inject_Z_plus, inject_Z_opp in H.
    change (inject_Z 1) with 1%Q in H. lra.
Qed.

Lemma init_window_length_is_ceiling_witness :
  let r := duration_ratio 3 (scalar_val (NpFloat (Fin (4 # 3)))) in
  Metrics.init (nums [0; 1; 2; 3]) (PyInt 3) 1
  = Ok (mkSlider (Qceiling r) 0 1)
  /\ (r <= inject_Z (Qceiling r))%Q
  /\ (inject_Z (Qceiling r) < r + 1)%Q.
Proof.
  apply (init_window_length_is_ceiling (nums [0; 1; 2; 3]) (PyInt 3) 3 1
           (NpFloat (Fin (4 # 3)))); vm_compute; reflexivity.
Defined.

(** X9: for an estimated frequency [0 <= f < 1] the constructor always
    fails: [floor(f)] is zero, the division yields an infinity (NaN for a
    zero duration) and [int] raises [OverflowError] ([ValueError] for a
    zero duration). *)
Theorem init_raises_below_one_hertz
    (timestamps : list num) (aggregation_duration : scalar) (d : Q)
    (window_overlap : Z) (f : scalar) (q : Q) :
  Metrics.establish_sampling_frequency timestamps = Ok f ->
  scalar_val f = Fin q ->
  (0 <= q)%Q -> (q < 1)%Q ->
  scalar_val aggregation_duration = Fin d ->
  Metrics.init timestamps aggregation_duration window_overlap
  = Raise (if Qis0 d then ValueError else OverflowError).
Proof.
  intros Hf Hv H0 H1 Hd. unfold Metrics.init. rewrite Hf. cbn [rbind].
  rewrite py_truediv_np_r, Hd, Hv. cbn [rbind scalar_val num_floor].
  cbv zeta.
  assert (Hfl : Qfloor q = 0).
  { pose proof (Qfloor_resp_le 0 q H0) as Ha.
    change (Qfloor 0%Q) with 0%Z in Ha.
    pose proof (Qfloor_le q) as Hb.
    assert (Hc : (inject_Z (Qfloor q) < inject_Z 1)%Q)
      by (change (inject_Z 1) with 1%Q; lra).
    rewrite <- Zlt_Qlt in Hc. lia. }
  rewrite Hfl. unfold num_div, num_of_Z.
  change (Qis0 (inject_Z 0)) with true. cbv iota.
  destruct (Qis0 d); [reflexivity|].
  unfold inf_of_sign. destruct (num_neg (Fin d)); reflexivity.
Qed.

Lemma init_raises_below_one_hertz_witness :
  Metrics.init (nums [0; 10; 20]) (PyInt 60) 1
  = Raise (if Qis0 60 then ValueError else OverflowError).
Proof.
  apply (init_raises_below_one_hertz (nums [0; 10; 20]) (PyInt 60) 60 1
           (NpFloat (Fin (3 # 20))) (3 # 20)).
  - vm_compute. reflexivity.
  - reflexivity.
  - unfold Qle. cbn. lia.
  - reflexivity.
  - reflexivity.
Defined.

(** ** Crossing counts *)

Lemma zc_step_side (xi : num) (b : bool) (c : Z) :
  num_isnan xi = false ->
  Transforms.zc_step [1%nat; 0%nat] xi (direction_of b, c)
  = Ok (direction_of (nonneg xi),
        if Bool.eqb (nonneg xi) b then c else c + 1).
Proof.
  intros Hx. unfold Transforms.zc_step, nonneg.
  assert (Hlt : num_ltb xi (Fin 0) = negb (num_leb (Fin 0) xi)).
  { destruct xi; try reflexivity; discriminate Hx. }
  rewrite Hlt. destruct (num_leb (Fin 0) xi), b; reflexivity.
Qed.

Lemma zc_loop_sides (rest : list num) :
  forall (pre : list num) (b : bool) (c : Z),
    Forall (fun a => num_isnan a = false) rest ->
    exists d,
      for_loop (seq (length pre) (length rest))
        (fun i st =>
           let* xi := get (pre ++ rest) i in
           Transforms.zc_step [1%nat; 0%nat] xi st) (direction_of b, c)
      = Ok (d, c + Z.of_nat (crossings_from b rest)).
Proof.
  induction rest as [|a rest IH]; intros pre b c Hn.
  - exists (direction_of b). cbn. f_equal. f_equal. lia.
  - inversion Hn as [|? ? Ha Hn']; subst.
    cbn [length seq for_loop]. rewrite get_middle. cbn [rbind].
    rewrite (zc_step_side a b c Ha). cbn [rbind].
    replace (pre ++ a :: rest) with ((pre ++ [a]) ++ rest)
      by (rewrite <- app_assoc; reflexivity).
    replace (S (length pre)) with (length (pre ++ [a]))
      by (rewrite length_app; cbn; lia).
    destruct (IH (pre ++ [a]) (nonneg a)
                (if Bool.eqb (nonneg a) b then c else c + 1) Hn')
      as [d E].
    exists d. rewrite E. f_equal. f_equal. cbn [crossings_from].
    destruct (Bool.eqb (nonneg a) b) eqn:Eb.
    + apply eqb_prop in Eb. rewrite Eb. reflexivity.
    + lia.
Qed.

Lemma crossings_from_pairs (a : num) (l : list num) :
  crossings_from (nonneg a) l
  = length (List.filter sign_change (pairs (a :: l))).
Proof.
  revert a. induction l as [|b l IH]; intros a; [reflexivity|].
  change (pairs (a :: b :: l)) with ((a, b) :: pairs (b :: l)).
  cbn [crossings_from List.filter]. unfold sign_change at 1. cbn [fst snd].
  pose proof (IH b) as Hb.
  destruct (nonneg b), (nonneg a); cbn [Bool.eqb xorb length];
    rewrite <- Hb; reflexivity.
Qed.

Lemma pairs_length {A} (l : list A) : length (pairs l) = (length l - 1)%nat.
Proof.
  induction l as [|a [|b l] IH]; [reflexivity|reflexivity|].
  change (pairs (a :: b :: l)) with ((a, b) :: pairs (b :: l)).
  cbn [length] in *. lia.
Qed.

Lemma zero_crossings_value (x : list num) :
  x <> [] ->
  Forall (fun a => num_isnan a = false) x ->
  Transforms.zero_crossings x
  = Ok (Z.of_nat (length (List.filter sign_change (pairs x)))).
Proof.
  intros Hx Hn. destruct x as [|x0 x]; [congruence|].
  unfold Transforms.zero_crossings. cbv zeta.
  change (get (x0 :: x) 0) with (Ok x0). cbn [rbind].
  unfold py_range. rewrite Nat.sub_0_r.
  destruct (zc_loop_sides (x0 :: x) [] (nonneg x0) 0 Hn) as [d E].
  cbn [app length] in E. unfold direction_of, nonneg in E.
  cbn [length]. rewrite E. cbn [rbind snd]. f_equal.
  rewrite <- crossings_from_pairs. cbn [crossings_from].
  fold (nonneg x0). rewrite eqb_reflx. lia.
Qed.

(** X10: on a non-empty window without NaN, [zero_crossings] returns the
    number of successive pairs of samples lying on different sides of
    zero, a zero sample counting as positive; the count is therefore at
    most [len(x) - 1]. *)
Theorem zero_crossings_counts_sign_changes (x : list num) :
  x <> [] ->
  Forall (fun a => num_isnan a = false) x ->
  Transforms.zero_crossings x
  = Ok (Z.of_nat (length (List.filter sign_change (pairs x))))
  /\ (length (List.filter sign_change (pairs x)) <= length x - 1)%nat.
Proof.
  intros Hx Hn. split; [apply zero_crossings_value; assumption|].
  rewrite <- (pairs_length x). apply filter_length_bound.
Qed.

Lemma zero_crossings_counts_sign_changes_witness :
  Transforms.zero_crossings (nums [1; -1; 0; -2])
  = Ok (Z.of_nat (length (List.filter sign_change
                            (pairs (nums [1; -1; 0; -2])))))
  /\ (length (List.filter sign_change (pairs (nums [1; -1; 0; -2]%Z)))
      <= length (nums [1; -1; 0; -2]%Z) - 1)%nat.
Proof.
  apply (zero_crossings_counts_sign_changes (nums [1; -1; 0; -2])).
  - discriminate.
  - repeat constructor.
Defined.

Lemma map_replicate {A B} (f : A -> B) (n : nat) (v : A) :
  map f (replicate n v) = replicate n (f v).
Proof. induction n as [|n IH]; [reflexivity|]. cbn. f_equal. exact IH. Qed.

Lemma zc_loop_constant (v : num) (n : nat) :
  forall (pre : list num) (c : Z),
    for_loop (seq (length pre) n)
      (fun i st =>
         let* xi := get (pre ++ replicate n v) i in
         Transforms.zc_step [1%nat; 0%nat] xi st)
      (if num_leb (Fin 0) v then 1%nat else 0%nat, c)
    = Ok (if num_leb (Fin 0) v then 1%nat else 0%nat, c).
Proof.
  induction n as [|n IH]; intros pre c; [reflexivity|].
  cbn [seq for_loop replicate]. rewrite get_middle. cbn [rbind].
  assert (Es : Transforms.zc_step [1%nat; 0%nat] v
                 (if num_leb (Fin 0) v then 1%nat else 0%nat, c)
               = Ok (if num_leb (Fin 0) v then 1%nat else 0%nat, c)).
  { unfold Transforms.zc_step.
    destruct v as [q| | |]; cbn; try reflexivity.
    unfold Qltb. destruct (Qle_bool 0 q); reflexivity. }
  rewrite Es. cbn [rbind].
  replace (pre ++ v :: replicate n v) with ((pre ++ [v]) ++ replicate n v)
    by (rewrite <- app_assoc; reflexivity).
  replace (S (length pre)) with (length (pre ++ [v]))
    by (rewrite length_app; cbn; lia).
  apply IH.
Qed.

(** X11: a window whose samples are all equal has no zero crossing and no
    mean crossing, whatever the common value (finite, infinite or NaN). *)
Theorem crossings_of_constant_window (v : num) (n : nat) :
  Transforms.zero_crossings (replicate (S n) v) = Ok 0
  /\ Transforms.mean_crossings (replicate (S n) v) = Ok 0.
Proof.
  assert (H : forall w, Transforms.zero_crossings (replicate (S n) w) = Ok 0).
  { intros w. unfold Transforms.zero_crossings. cbv zeta.
    change (get (replicate (S n) w) 0) with (Ok w). cbn [rbind].
    unfold py_range. rewrite Nat.sub_0_r, length_replicate.
    pose proof (zc_loop_constant w (S n) [] 0) as L.
    cbn [app length] in L. rewrite L. reflexivity. }
  split; [apply H|].
  unfold Transforms.mean_crossings. cbv zeta.
  rewrite map_replicate. apply H.
Qed.

(** ** Distinct labels *)

Lemma insert_unique_In (x z : Z) (l : list Z) :
  In x (insert_unique z l) <-> x = z \/ In x l.
Proof.
  induction l as [|y l IH]; cbn [insert_unique].
  - cbn. intuition congruence.
  - destruct (Z.ltb_spec z y); [cbn; intuition congruence|].
    destruct (Z.eqb_spec z y); [subst; cbn; intuition congruence|].
    cbn [In]. rewrite IH. intuition congruence.
Qed.

Lemma np_unique_In (x : Z) (l : list Z) : In x (np_unique l) <-> In x l.
Proof.
  induction l as [|z l IH]; [reflexivity|].
  change (np_unique (z :: l)) with (insert_unique z (np_unique l)).
  rewrite insert_unique_In, IH. cbn. intuition congruence.
Qed.

Lemma insert_unique_sorted (z : Z) (l : list Z) :
  StronglySorted Z.lt l -> StronglySorted Z.lt (insert_unique z l).
Proof.
  induction 1 as [|y l Hs IH Hy]; cbn [insert_unique].
  - repeat constructor.
  - destruct (Z.ltb_spec z y).
    + constructor; [constructor; assumption|]. constructor; [exact H|].
      eapply List.Forall_impl; [|exact Hy]. cbn. intros. lia.
    + destruct (Z.eqb_spec z y); [constructor; assumption|].
      constructor; [exact IH|]. apply List.Forall_forall. intros x Hx.
      apply insert_unique_In in Hx. destruct Hx as [->|Hx]; [lia|].
      apply (proj1 (List.Forall_forall _ _) Hy). exact Hx.
Qed.

Lemma np_unique_sorted (l : list Z) : StronglySorted Z.lt (np_unique l).
Proof.
  induction l as [|z l IH]; [constructor|].
  apply insert_unique_sorted. exact IH.
Qed.

Lemma sorted_NoDup (l : list Z) : StronglySorted Z.lt l -> List.NoDup l.
Proof.
  induction 1 as [|y l Hs IH Hy]; constructor; [|exact IH].
  intros Hin. apply (proj1 (List.Forall_forall _ _) Hy) in Hin. lia.
Qed.

Lemma first_index_In (z : Z) (l : list Z) :
  In z l -> exists i, first_index z l = Some i.
Proof.
  induction l as [|y l IH]; [intros []|]. intros Hin. cbn [first_index].
  destruct (Z.eqb_spec y z); [eexists; reflexivity|].
  destruct Hin as [->|Hin]; [congruence|].
  destruct (IH Hin) as [i ->]. eexists. reflexivity.
Qed.

Lemma first_index_bound (z : Z) (l : list Z) (i : nat) :
  first_index z l = Some i -> (i < length l)%nat /\ In z l.
Proof.
  revert i. induction l as [|y l IH]; intros i; [discriminate|].
  cbn [first_index]. destruct (Z.eqb_spec y z).
  - intros [= <-]. subst. cbn. split; [lia|auto].
  - destruct (first_index z l) as [j|]; [|discriminate].
    intros [= <-]. destruct (IH j eq_refl). cbn. split; [lia|auto].
Qed.

Lemma get_map_at {B} (g : Z -> B) (a : Z) (U : list Z) (i : nat) :
  first_index a U = Some i -> get (map g U) i = Ok (g a).
Proof.
  revert i. induction U as [|y U IH]; intros i; [discriminate|].
  cbn [first_index]. destruct (Z.eqb_spec y a).
  - intros [= <-]. subst. reflexivity.
  - destruct (first_index a U) as [j|]; [|discriminate].
    intros [= <-]. apply (IH j eq_refl).
Qed.

Lemma insert_map_at {B} (g g' : Z -> B) (a : Z) (U : list Z) (i : nat) :
  List.NoDup U ->
  first_index a U = Some i ->
  (forall u, In u U -> u <> a -> g' u = g u) ->
  <[i := g' a]> (map g U) = map g' U.
Proof.
  revert i. induction U as [|y U IH]; intros i Hnd; [discriminate|].
  inversion Hnd as [|? ? Hy Hnd']; subst.
  cbn [first_index]. destruct (Z.eqb_spec y a).
  - intros [= <-] Hg. subst. cbn. f_equal. apply map_ext_in.
    intros u Hu. symmetry. apply Hg; [right; exact Hu|].
    intros ->. contradiction.
  - destruct (first_index a U) as [j|] eqn:Ej; [|discriminate].
    intros [= <-] Hg. cbn. f_equal.
    + symmetry. apply Hg; [left; reflexivity|exact n].
    + apply (IH j Hnd' eq_refl). intros u Hu. apply Hg. right. exact Hu.
Qed.

Lemma np_unique_counts_length (l : list Z) :
  length (np_unique_counts l) = length (np_unique l).
Proof. unfold np_unique_counts. apply length_map. Qed.

Lemma sum_delta (a : Z) (U : list Z) :
  List.NoDup U ->
  list_sum (map (fun u => if u =? a then 1%nat else 0%nat) U)
  = if existsb (Z.eqb a) U then 1%nat else 0%nat.
Proof.
  induction 1 as [|y U Hy Hnd IH]; [reflexivity|].
  cbn [map existsb].
  change (list_sum (?h :: ?t)) with (h + list_sum t)%nat. rewrite IH.
  destruct (Z.eqb_spec y a) as [->|Hne].
  - rewrite Z.eqb_refl. cbn [orb].
    destruct (existsb (Z.eqb a) U) eqn:E; [|reflexivity].
    apply existsb_exists in E. destruct E as [x [Hx Ex]].
    apply Z.eqb_eq in Ex. subst x. contradiction.
  - destruct (Z.eqb_spec a y); [congruence|]. reflexivity.
Qed.

Lemma list_sum_map_add {A} (f g : A -> nat) (l : list A) :
  list_sum (map (fun x => (f x + g x)%nat) l)
  = (list_sum (map f l) + list_sum (map g l))%nat.
Proof.
  induction l as [|a l IH]; [reflexivity|]. cbn [map].
  change (list_sum (?h :: ?t)) with (h + list_sum t)%nat. lia.
Qed.

(** The counts of the distinct labels add up to the number of samples. *)
Lemma counts_sum (U l : list Z) :
  List.NoDup U -> (forall a, In a l -> In a U) ->
  list_sum (map (fun u => count_label u l) U) = length l.
Proof.
  intros Hnd. induction l as [|a l IH]; intros Hin.
  - clear Hnd Hin. induction U as [|u U IHU]; [reflexivity|].
    cbn [map]. change (list_sum (?h :: ?t)) with (h + list_sum t)%nat.
    rewrite IHU. reflexivity.
  - rewrite (map_ext (fun u => count_label u (a :: l))
               (fun u => ((if Z.eqb u a then 1 else 0)
                          + count_label u l)%nat)).
    2:{ intros u. unfold count_label. cbn [List.filter].
        destruct (u =? a); reflexivity. }
    rewrite (list_sum_map_add
               (fun u => if u =? a then 1%nat else 0%nat)
               (fun u => count_label u l)),
            (sum_delta a U Hnd), IH.
    + assert (E : existsb (Z.eqb a) U = true).
      { apply existsb_exists. exists a. split; [|apply Z.eqb_refl].
        apply Hin. left. reflexivity. }
      rewrite E. reflexivity.
    + intros b Hb. apply Hin. right. exact Hb.
Qed.

(** ** Label proportions and durations *)

Lemma set2_middle (pre : list (list num)) (row : list num)
    (rest : list (list num)) (j : nat) (v : num) :
  (j < length row)%nat ->
  set2 (pre ++ row :: rest) (length pre) j v
  = Ok (pre ++ <[j := v]> row :: rest).
Proof.
  intros Hj. unfold set2. rewrite get_middle. cbn [rbind].
  destruct (Nat.ltb_spec j (length row)); [|lia].
  rewrite insert_middle. reflexivity.
Qed.

(** A loop that fills one two-column row per label. *)
Lemma fill_loop (val : nat -> num)
    (step : nat -> list (list num) -> result (list (list num)))
    (U : list Z) (C : list nat) :
  (forall u c pre rest,
     get U (length pre) = Ok u -> get C (length pre) = Ok c ->
     step (length pre) (pre ++ [Fin 0; Fin 0] :: rest)
     = Ok (pre ++ [num_of_Z u; val c] :: rest)) ->
  forall (urest : list Z) (crest : list nat) (upre : list Z)
         (cpre : list nat) (pre : list (list num)),
    U = upre ++ urest -> C = cpre ++ crest ->
    length crest = length urest ->
    length cpre = length upre -> length pre = length upre ->
    for_loop (seq (length upre) (length urest)) step
             (pre ++ replicate (length urest) [Fin 0; Fin 0])
    = Ok (pre ++ map (fun p => [num_of_Z (fst p); val (snd p)])
                     (combine urest crest)).
Proof.
  intros Hstep. induction urest as [|u urest IH];
    intros crest upre cpre pre EU EC Hc Hcp Hp.
  - cbn. reflexivity.
  - destruct crest as [|c crest]; [discriminate Hc|]. injection Hc as Hc.
    cbn [length seq for_loop replicate combine map].
    rewrite <- Hp. rewrite (Hstep u c).
    + cbn [rbind].
      replace (pre ++ [num_of_Z u; val c]
                   :: replicate (length urest) [Fin 0; Fin 0])
        with ((pre ++ [[num_of_Z u; val c]])
                ++ replicate (length urest) [Fin 0; Fin 0])
        by (rewrite <- app_assoc; reflexivity).
      rewrite Hp.
      replace (S (length upre)) with (length (upre ++ [u]))
        by (rewrite length_app; cbn; lia).
      rewrite (IH crest (upre ++ [u]) (cpre ++ [c])
                 (pre ++ [[num_of_Z u; val c]])).
      * rewrite <- app_assoc. reflexivity.
      * rewrite EU, <- app_assoc. reflexivity.
      * rewrite EC, <- app_assoc. reflexivity.
      * exact Hc.
      * rewrite !length_app. cbn. lia.
      * rewrite !length_app. cbn. lia.
    + rewrite Hp, EU. apply get_middle.
    + rewrite Hp, <- Hcp, EC. apply get_middle.
Qed.

Lemma map_combine_map {B} (cnt : Z -> nat) (f : Z * nat -> B) (U : list Z) :
  map f (combine U (map cnt U)) = map (fun u => f (u, cnt u)) U.
Proof. induction U as [|u U IH]; [reflexivity|]. cbn. f_equal. exact IH. Qed.

Lemma fill_table (val : nat -> num)
    (step : nat -> list (list num) -> result (list (list num)))
    (labels : list Z) :
  (forall u c pre rest,
     get (np_unique labels) (length pre) = Ok u ->
     get (np_unique_counts labels) (length pre) = Ok c ->
     step (length pre) (pre ++ [Fin 0; Fin 0] :: rest)
     = Ok (pre ++ [num_of_Z u; val c] :: rest)) ->
  for_loop (py_range 0 (Nat.min (length (np_unique labels))
                                (length (np_unique_counts labels))))
           step (zeros2 (length (np_unique labels)) 2)
  = Ok (map (fun u => [num_of_Z u; val (count_label u labels)])
            (np_unique labels)).
Proof.
  intros Hstep. rewrite np_unique_counts_length, Nat.min_id.
  unfold py_range. rewrite Nat.sub_0_r.
  pose proof (fill_loop val step (np_unique labels)
                (np_unique_counts labels) Hstep (np_unique labels)
                (np_unique_counts labels) [] [] [] eq_refl eq_refl
                (np_unique_counts_length labels) eq_refl eq_refl) as L.
  cbn [app length] in L. unfold zeros2. cbn [replicate]. rewrite L.
  unfold np_unique_counts. rewrite map_combine_map. reflexivity.
Qed.

Lemma average_labels_value (labels : list Z) (timestamps : list num) :
  Metrics.average_labels_per_window labels timestamps
  = Ok (map (proportion_row labels) (np_unique labels)).
Proof.
  unfold Metrics.average_labels_per_window. cbv zeta.
  apply (fill_table
           (fun c => num_div (num_of_nat c) (num_of_nat (length labels)))).
  intros u c pre rest Hu Hc. unfold Metrics.proportion_step.
  rewrite Hu, Hc. cbn [rbind]. cbv zeta.
  rewrite set2_middle by (cbn; lia). cbn [rbind].
  rewrite set2_middle by (cbn; lia). reflexivity.
Qed.

Lemma duration_value (labels : list Z) (timestamps : list num)
    (last first : num) :
  get_last timestamps = Ok last -> get timestamps 0 = Ok first ->
  Metrics.duration_of_labels_per_window labels timestamps
  = Ok (map (duration_row labels (num_sub last first)) (np_unique labels)).
Proof.
  intros Hl Hf. unfold Metrics.duration_of_labels_per_window. cbv zeta.
  rewrite Hl, Hf. cbn [rbind].
  apply (fill_table
           (fun c => num_mul (num_div (num_of_nat c)
                                      (num_of_nat (length labels)))
                             (num_sub last first))).
  intros u c pre rest Hu Hc. unfold Metrics.duration_step.
  rewrite Hu, Hc. cbn [rbind]. cbv zeta.
  rewrite set2_middle by (cbn; lia). cbn [rbind].
  rewrite set2_middle by (cbn; lia). reflexivity.
Qed.

(** X12: [average_labels_per_window] never raises and ignores the
    timestamps; it returns one row per distinct label of the window, in
    strictly increasing label order, holding the label and its share
    [count / len(labels)] of the samples; an empty window gives an empty
    table. *)
Theorem average_labels_table (labels : list Z) (timestamps : list num) :
  Metrics.average_labels_per_window labels timestamps
  = Ok (map (proportion_row labels) (np_unique labels))
  /\ StronglySorted Z.lt (np_unique labels)
  /\ (forall z, In z (np_unique labels) <-> In z labels)
  /\ Metrics.average_labels_per_window [] timestamps = Ok [].
Proof.
  split; [apply average_labels_value|].
  split; [apply np_unique_sorted|].
  split; [intros z; apply np_unique_In|].
  reflexivity.
Qed.

Lemma has_value_of_nat (n : nat) :
  has_value (num_of_nat n) (inject_Z (Z.of_nat n)).
Proof. eexists. split; reflexivity. Qed.

Lemma inject_nat_nonzero (n : nat) :
  n <> 0%nat -> ~ (inject_Z (Z.of_nat n) == 0)%Q.
Proof. intros Hn E. unfold Qeq in E. cbn in E. lia. Qed.

(** The sum of the entries [c / n * s] over a list of counts. *)
Lemma sum_of_scaled_shares (n : nat) (span : num) (s : Q) (cs : list nat) :
  n <> 0%nat -> has_value span s ->
  forall (acc : num) (a : Q),
    has_value acc a ->
    has_value
      (fold_left num_add
         (map (fun c => num_mul (num_div (num_of_nat c) (num_of_nat n)) span)
              cs) acc)
      (a + inject_Z (Z.of_nat (list_sum cs)) / inject_Z (Z.of_nat n) * s).
Proof.
  intros Hn Hs. induction cs as [|c cs IH]; intros acc a Ha.
  - destruct Ha as [a' [-> Ha]]. exists a'. split; [reflexivity|].
    rewrite Ha. cbn [list_sum fold_right]. change (inject_Z (Z.of_nat 0)) with 0%Q.
    field. apply inject_nat_nonzero. exact Hn.
  - cbn [map fold_left].
    assert (Hc : has_value
                   (num_mul (num_div (num_of_nat c) (num_of_nat n)) span)
                   (inject_Z (Z.of_nat c) / inject_Z (Z.of_nat n) * s)).
    { apply has_value_mul; [|exact Hs].
      apply has_value_div; [apply inject_nat_nonzero; exact Hn| |];
        apply has_value_of_nat. }
    destruct (IH _ _ (has_value_add _ _ _ _ Ha Hc)) as [q [E Hq]].
    exists q. split; [exact E|]. rewrite Hq.
    change (list_sum (c :: cs)) with (c + list_sum cs)%nat.
    rewrite Nat2Z.inj_add, inject_Z_plus. field.
    apply inject_nat_nonzero. exact Hn.
Qed.

Lemma sum_of_shares (n : nat) (cs : list nat) :
  n <> 0%nat ->
  has_value
    (num_sum (map (fun c => num_div (num_of_nat c) (num_of_nat n)) cs))
    (inject_Z (Z.of_nat (list_sum cs)) / inject_Z (Z.of_nat n)).
Proof.
  intros Hn. unfold num_sum.
  assert (H : forall (acc : num) (a : Q),
            has_value acc a ->
            has_value
              (fold_left num_add
                 (map (fun c => num_div (num_of_nat c) (num_of_nat n)) cs)
                 acc)
              (a + inject_Z (Z.of_nat (list_sum cs))
                   / inject_Z (Z.of_nat n))).
  { induction cs as [|c cs IH]; intros acc a Ha.
    - destruct Ha as [a' [-> Ha]]. exists a'. split; [reflexivity|].
      rewrite Ha. cbn [list_sum fold_right].
      change (inject_Z (Z.of_nat 0)) with 0%Q.
      field. apply inject_nat_nonzero. exact Hn.
    - cbn [map fold_left].
      assert (Hc : has_value (num_div (num_of_nat c) (num_of_nat n))
                     (inject_Z (Z.of_nat c) / inject_Z (Z.of_nat n))).
      { apply has_value_div; [apply inject_nat_nonzero; exact Hn| |];
          apply has_value_of_nat. }
      destruct (IH _ _ (has_value_add _ _ _ _ Ha Hc)) as [q [E Hq]].
      exists q. split; [exact E|]. rewrite Hq.
      change (list_sum (c :: cs)) with (c + list_sum cs)%nat.
      rewrite Nat2Z.inj_add, inject_Z_plus. field.
      apply inject_nat_nonzero. exact Hn. }
  destruct (H (Fin 0) 0%Q) as [q [E Hq]]; [exists 0%Q; split; reflexivity|].
  exists q. split; [exact E|]. rewrite Hq. ring.
Qed.

Lemma labels_counts_sum (labels : list Z) :
  list_sum (map (fun u => count_label u labels) (np_unique labels))
  = length labels.
Proof.
  apply counts_sum.
  - apply sorted_NoDup, np_unique_sorted.
  - intros a Ha. apply np_unique_In. exact Ha.
Qed.

(** X13: on a non-empty window the proportions returned by
    [average_labels_per_window] add up to exactly 1. *)
Theorem average_labels_sum_to_one (labels : list Z) (timestamps : list num) :
  labels <> [] ->
  exists table,
    Metrics.average_labels_per_window labels timestamps = Ok table
    /\ has_value (num_sum (column1 table)) 1.
Proof.
  intros Hne. eexists. split; [apply average_labels_value|].
  unfold column1. rewrite map_map. cbn [proportion_row nth].
  assert (Hn : length labels <> 0%nat) by (destruct labels; cbn; congruence).
  pose proof (sum_of_shares (length labels)
                (map (fun u => count_label u labels) (np_unique labels)) Hn)
    as [q [E Hq]].
  rewrite map_map in E. exists q. split; [exact E|].
  rewrite Hq, labels_counts_sum. field.
  apply inject_nat_nonzero. exact Hn.
Qed.

Lemma average_labels_sum_to_one_witness :
  exists table,
    Metrics.average_labels_per_window [3; 1; 3; 3] [] = Ok table
    /\ has_value (num_sum (column1 table)) 1.
Proof.
  apply (average_labels_sum_to_one [3; 1; 3; 3] []). discriminate.
Defined.

Lemma last_default {A} (l : list A) (b a : A) :
  List.last (b :: l) a = List.last l b.
Proof.
  revert b a. induction l as [|c l IH]; intros b a; [reflexivity|].
  change (List.last (b :: c :: l) a) with (List.last (c :: l) a).
  rewrite (IH c a), (IH c b). reflexivity.
Qed.

Lemma get_last_cons {A} (a : A) (l : list A) :
  get_last (a :: l) = Ok (List.last l a).
Proof.
  unfold get_last. revert a. induction l as [|b l IH]; intros a;
    [reflexivity|].
  change (last (a :: b :: l)) with (last (b :: l)).
  rewrite IH, last_default. reflexivity.
Qed.

(** X14: [duration_of_labels_per_window] raises [IndexError] on an empty
    timestamp sequence, whatever the labels; otherwise it returns one row
    per distinct label holding the label and its share of the samples
    multiplied by the span [timestamps[-1] - timestamps[0]], whether or not
    the timestamps are as many as the labels. *)
Theorem duration_of_labels_table (labels : list Z) (t0 : num)
    (rest : list num) :
  Metrics.duration_of_labels_per_window labels [] = Raise IndexError
  /\ Metrics.duration_of_labels_per_window labels (t0 :: rest)
     = Ok (map (duration_row labels (num_sub (List.last rest t0) t0))
               (np_unique labels)).
Proof.
  split; [reflexivity|].
  apply duration_value; [apply get_last_cons|reflexivity].
Qed.

(** X15: on a non-empty window with finite first and last timestamps the
    durations returned by [duration_of_labels_per_window] add up to the
    span of the window, last timestamp minus first. *)
Theorem durations_sum_to_span (labels : list Z) (t0 : num)
    (rest : list num) (a b : Q) :
  labels <> [] ->
  has_value t0 a ->
  has_value (List.last rest t0) b ->
  exists table,
    Metrics.duration_of_labels_per_window labels (t0 :: rest) = Ok table
    /\ has_value (num_sum (column1 table)) (b - a).
Proof.
  intros Hne Ha Hb. eexists. split.
  { apply duration_value; [apply get_last_cons|reflexivity]. }
  unfold column1. rewrite map_map. cbn [duration_row nth].
  assert (Hn : length labels <> 0%nat) by (destruct labels; cbn; congruence).
  pose proof (sum_of_scaled_shares (length labels)
                (num_sub (List.last rest t0) t0) (b - a)
                (map (fun u => count_label u labels) (np_unique labels)) Hn
                (has_value_sub _ _ _ _ Hb Ha) (Fin 0) 0%Q) as H.
  destruct H as [q [E Hq]]; [exists 0%Q; split; reflexivity|].
  rewrite map_map in E. exists q. split; [exact E|].
  rewrite Hq, labels_counts_sum. field.
  apply inject_nat_nonzero. exact Hn.
Qed.

Lemma durations_sum_to_span_witness :
  exists table,
    Metrics.duration_of_labels_per_window [3; 1; 3; 3] (nums [0; 1; 2; 10])
    = Ok table
    /\ has_value (num_sum (column1 table)) (10 - 0).
Proof.
  apply (durations_sum_to_span [3; 1; 3; 3] (Fin 0) (nums [1; 2; 10]) 0 10).
  - discriminate.
  - eexists. split; reflexivity.
  - eexists. split; reflexivity.
Defined.

(** ** Label changes *)

Lemma Qred_inject_Z (z : Z) : Qred (inject_Z z) = inject_Z z.
Proof.
  unfold Qred, inject_Z.
  pose proof (Z.ggcd_gcd z 1) as Hg.
  pose proof (Z.ggcd_correct_divisors z 1) as Hd.
  change (Z.pos 1) with 1. destruct (Z.ggcd z 1) as [g [aa bb]].
  cbn [fst snd] in *. rewrite Z.gcd_1_r in Hg. subst g.
  destruct Hd as [Ha Hb]. rewrite Z.mul_1_l in Ha, Hb. subst aa bb.
  reflexivity.
Qed.

Lemma count_plus_one (c : nat) :
  num_add (num_of_nat c) (Fin 1) = num_of_nat (S c).
Proof.
  unfold num_of_nat, num_of_Z, num_add, fin. f_equal.
  rewrite <- (Qred_inject_Z (Z.of_nat (S c))). apply Qred_complete.
  rewrite Nat2Z.inj_succ, <- Z.add_1_r, inject_Z_plus. reflexivity.
Qed.

Lemma count_pair_snoc (u v a b : Z) (ps : list (Z * Z)) :
  count_pair u v (ps ++ [(a, b)])
  = (count_pair u v ps
     + if Z.eqb a u && Z.eqb b v then 1 else 0)%nat.
Proof.
  unfold count_pair. rewrite List.filter_app, length_app. cbn.
  destruct ((a =? u) && (b =? v)); reflexivity.
Qed.

Lemma map_const_replicate {A B} (c : B) (l : list A) :
  map (fun _ => c) l = replicate (length l) c.
Proof. induction l as [|a l IH]; [reflexivity|]. cbn. f_equal. exact IH. Qed.

Lemma change_step_value (U : list Z) (labels : list Z) (idx : nat)
    (a b : Z) (ps : list (Z * Z)) :
  List.NoDup U -> In a U -> In b U ->
  get labels (idx - 1) = Ok a -> get labels idx = Ok b ->
  Metrics.change_step U labels idx (transition_matrix U ps)
  = Ok (transition_matrix U (ps ++ [(a, b)])).
Proof.
  intros Hnd Ha Hb Ga Gb. unfold Metrics.change_step.
  rewrite Ga. cbn [rbind]. unfold where0.
  destruct (first_index_In a U Ha) as [i Ei].
  destruct (first_index_In b U Hb) as [j Ej].
  rewrite Ei. cbn [of_option rbind]. rewrite Gb. cbn [rbind].
  rewrite Ej. cbn [of_option rbind].
  set (cell := fun (qs : list (Z * Z)) (u v : Z) =>
                 num_of_nat (count_pair u v qs)).
  assert (Grow : get (transition_matrix U ps) i = Ok (map (cell ps a) U))
    by (apply (get_map_at (fun u => map (cell ps u) U) a U i Ei)).
  assert (Gcell : get (map (cell ps a) U) j = Ok (cell ps a b))
    by (apply (get_map_at (cell ps a) b U j Ej)).
  unfold Metrics.get2. rewrite Grow. cbn [rbind]. rewrite Gcell.
  cbn [rbind]. unfold set2. rewrite Grow. cbn [rbind].
  rewrite length_map.
  destruct (Nat.ltb_spec j (length U)) as [_|Hj];
    [|destruct (first_index_bound b U j Ej); lia].
  f_equal. change (cell ps a b) with (num_of_nat (count_pair a b ps)).
  rewrite count_plus_one.
  assert (Einner : <[j := num_of_nat (S (count_pair a b ps))]>
                     (map (cell ps a) U)
                   = map (cell (ps ++ [(a, b)]) a) U).
  { replace (num_of_nat (S (count_pair a b ps)))
      with (cell (ps ++ [(a, b)]) a b).
    - apply (insert_map_at (cell ps a) (cell (ps ++ [(a, b)]) a) b U j
               Hnd Ej).
      intros v _ Hv. unfold cell. rewrite count_pair_snoc.
      destruct (Z.eqb_spec b v); [congruence|].
      rewrite andb_false_r, Nat.add_0_r. reflexivity.
    - unfold cell. rewrite count_pair_snoc, !Z.eqb_refl. cbn [andb].
      f_equal. lia. }
  rewrite Einner.
  apply (insert_map_at (fun u => map (cell ps u) U)
           (fun u => map (cell (ps ++ [(a, b)]) u) U) a U i Hnd Ei).
  intros u _ Hu. apply map_ext. intros v. unfold cell.
  rewrite count_pair_snoc. destruct (Z.eqb_spec a u); [congruence|].
  cbn [andb]. rewrite Nat.add_0_r. reflexivity.
Qed.

Lemma change_loop (U : list Z) (lrest : list Z) :
  forall (lpre : list Z) (a : Z) (ps : list (Z * Z)),
    List.NoDup U ->
    (forall x, In x (a :: lrest) -> In x U) ->
    for_loop (seq (S (length lpre)) (length lrest))
      (Metrics.change_step U (lpre ++ a :: lrest))
      (transition_matrix U ps)
    = Ok (transition_matrix U (ps ++ pairs (a :: lrest))).
Proof.
  induction lrest as [|b lrest IH]; intros lpre a ps Hnd Hin.
  - cbn. rewrite app_nil_r. reflexivity.
  - cbn [length seq for_loop].
    rewrite (change_step_value U _ _ a b ps Hnd).
    + cbn [rbind].
      replace (lpre ++ a :: b :: lrest) with ((lpre ++ [a]) ++ b :: lrest)
        by (rewrite <- app_assoc; reflexivity).
      replace (S (length lpre)) with (length (lpre ++ [a]))
        by (rewrite length_app; cbn; lia).
      rewrite (IH (lpre ++ [a]) b (ps ++ [(a, b)]) Hnd).
      * change (pairs (a :: b :: lrest))
          with ((a, b) :: pairs (b :: lrest)).
        rewrite <- app_assoc. reflexivity.
      * intros x Hx. apply Hin. right. exact Hx.
    + apply Hin. left. reflexivity.
    + apply Hin. right. left. reflexivity.
    + replace (S (length lpre) - 1)%nat with (length lpre) by lia.
      apply get_middle.
    + replace (lpre ++ a :: b :: lrest) with ((lpre ++ [a]) ++ b :: lrest)
        by (rewrite <- app_assoc; reflexivity).
      replace (S (length lpre)) with (length (lpre ++ [a]))
        by (rewrite length_app; cbn; lia).
      apply get_middle.
Qed.

Lemma label_changes_value (labels : list Z) (timestamps : list num) :
  Metrics.number_of_label_changes_per_window labels timestamps
  = Ok (transition_matrix (np_unique labels) (pairs labels)).
Proof.
  unfold Metrics.number_of_label_changes_per_window. cbv zeta.
  assert (Ez : zeros2 (length (np_unique labels))
                      (length (np_unique labels))
               = transition_matrix (np_unique labels) []).
  { unfold zeros2, transition_matrix. cbn [count_pair List.filter length].
    rewrite (map_const_replicate (num_of_nat 0) (np_unique labels)).
    rewrite map_const_replicate. reflexivity. }
  rewrite Ez. destruct labels as [|a lrest]; [reflexivity|].
  unfold py_range. cbn [length].
  replace (S (length lrest) - 1)%nat with (length lrest) by lia.
  pose proof (change_loop (np_unique (a :: lrest)) lrest [] a []
                (sorted_NoDup _ (np_unique_sorted _))) as L.
  cbn [app length] in L. apply L.
  intros x Hx. apply np_unique_In. exact Hx.
Qed.

Lemma pairs_In {A} (l : list A) (p : A * A) :
  In p (pairs l) -> In (fst p) l /\ In (snd p) l.
Proof.
  induction l as [|a [|b l] IH]; [intros []|intros []|].
  change (pairs (a :: b :: l)) with ((a, b) :: pairs (b :: l)).
  intros [<-|H]; [cbn; auto|].
  destruct (IH H). split; right; assumption.
Qed.

Lemma count_pair_cons (u v a b : Z) (ps : list (Z * Z)) :
  count_pair u v ((a, b) :: ps)
  = ((if Z.eqb a u then if Z.eqb b v then 1 else 0 else 0)
     + count_pair u v ps)%nat.
Proof.
  unfold count_pair. cbn [List.filter fst snd].
  destruct (a =? u), (b =? v); reflexivity.
Qed.

Lemma transitions_total (U : list Z) (ps : list (Z * Z)) :
  List.NoDup U ->
  (forall p, In p ps -> In (fst p) U /\ In (snd p) U) ->
  list_sum (map (fun u => list_sum (map (fun v => count_pair u v ps) U)) U)
  = length ps.
Proof.
  intros Hnd. induction ps as [|[a b] ps IH]; intros Hin.
  - cbn [count_pair List.filter length].
    assert (Hz : forall l : list Z, list_sum (map (fun _ => 0%nat) l) = 0%nat).
    { induction l as [|x l IHl]; [reflexivity|]. cbn [map].
      change (list_sum (?h :: ?t)) with (h + list_sum t)%nat.
      rewrite IHl. reflexivity. }
    rewrite (map_ext _ (fun _ => 0%nat)); [apply Hz|].
    intros u. apply Hz.
  - destruct (Hin (a, b) (or_introl eq_refl)) as [Ha Hb]. cbn [fst snd] in *.
    rewrite (map_ext _ (fun u => ((if Z.eqb u a then 1 else 0)
        + list_sum (map (fun v => count_pair u v ps) U))%nat)).
    + rewrite (list_sum_map_add (fun u => if Z.eqb u a then 1%nat else 0%nat)
                 (fun u => list_sum (map (fun v => count_pair u v ps) U))).
      rewrite (sum_delta a U Hnd), IH.
      * assert (E : existsb (Z.eqb a) U = true).
        { apply existsb_exists. exists a. split; [exact Ha|apply Z.eqb_refl]. }
        rewrite E. reflexivity.
      * intros p Hp. apply Hin. right. exact Hp.
    + intros u.
      rewrite (map_ext _ (fun v =>
                 ((if Z.eqb a u then if Z.eqb v b then 1 else 0 else 0)
                  + count_pair u v ps)%nat)).
      * rewrite (list_sum_map_add
                   (fun v => if Z.eqb a u then if Z.eqb v b then 1%nat
                                               else 0%nat else 0%nat)
                   (fun v => count_pair u v ps)).
        f_equal. rewrite (Z.eqb_sym u a). destruct (Z.eqb a u).
        -- rewrite (sum_delta b U Hnd).
           assert (E : existsb (Z.eqb b) U = true).
           { apply existsb_exists. exists b.
             split; [exact Hb|apply Z.eqb_refl]. }
           rewrite E. reflexivity.
        -- clear. induction U as [|x U IHU]; [reflexivity|]. cbn [map].
           change (list_sum (?h :: ?t)) with (h + list_sum t)%nat.
           rewrite IHU. reflexivity.
      * intros v. rewrite count_pair_cons, (Z.eqb_sym b v). reflexivity.
Qed.

(** X16: [number_of_label_changes_per_window] never raises and ignores the
    timestamps; with the distinct labels [U] of the window in increasing
    order, entry [(i, j)] of the matrix it returns is the number of pairs
    of successive samples going from label [U[i]] to label [U[j]], and all
    the entries together add up to the number of successive pairs:
    [len(labels) - 1] on a non-empty window, 0 on an empty one. *)
Theorem label_changes_matrix (labels : list Z) (timestamps : list num) :
  Metrics.number_of_label_changes_per_window labels timestamps
  = Ok (transition_matrix (np_unique labels) (pairs labels))
  /\ list_sum
       (map (fun u =>
               list_sum (map (fun v => count_pair u v (pairs labels))
                             (np_unique labels)))
            (np_unique labels))
     = (length labels - 1)%nat.
Proof.
  split; [apply label_changes_value|].
  rewrite <- (pairs_length labels). apply transitions_total.
  - apply sorted_NoDup, np_unique_sorted.
  - intros p Hp. destruct (pairs_In labels p Hp) as [H1 H2].
    split; apply np_unique_In; assumption.
Qed.

(** ** Spectral entropy: the normalized spectrum and the epsilon *)

Lemma values_sum_fold (l : list num) :
  Forall magnitude l ->
  forall (acc : num) (a : Q),
    has_value acc a ->
    has_value (fold_left num_add l acc) (a + values_sum l).
Proof.
  induction 1 as [|m l [q [-> Hq]] _ IH]; intros acc a Ha.
  - destruct Ha as [a' [-> Ha]]. exists a'. split; [reflexivity|].
    cbn. rewrite Ha. ring.
  - cbn [fold_left values_sum fold_right].
    assert (Hm : has_value (Fin q) q) by (exists q; split; reflexivity).
    destruct (IH _ _ (has_value_add _ _ _ _ Ha Hm)) as [r [E Hr]].
    exists r. split; [exact E|]. rewrite Hr. fold (values_sum l). ring.
Qed.

Lemma values_sum_fold_div (s : Q) (l : list num) :
  ~ (s == 0)%Q ->
  Forall magnitude l ->
  forall (acc : num) (a : Q),
    has_value acc a ->
    has_value (fold_left num_add (map (fun m => num_div m (Fin s)) l) acc)
              (a + values_sum l / s).
Proof.
  intros Hs. induction 1 as [|m l [q [-> Hq]] _ IH]; intros acc a Ha.
  - destruct Ha as [a' [-> Ha]]. exists a'. split; [reflexivity|].
    cbn. rewrite Ha. field. exact Hs.
  - cbn [map fold_left values_sum fold_right].
    assert (Hm : has_value (num_div (Fin q) (Fin s)) (q / s)).
    { apply has_value_div; [exact Hs| |]; eexists; split; reflexivity. }
    destruct (IH _ _ (has_value_add _ _ _ _ Ha Hm)) as [r [E Hr]].
    exists r. split; [exact E|]. rewrite Hr. fold (values_sum l).
    field. exact Hs.
Qed.

(** X17: when the FFT magnitudes are finite and their sum is not zero, the
    normalized magnitudes computed by [spec_entropy] add up to exactly
    1. *)
Theorem normalised_spectrum_sums_to_one (F : list num) :
  Forall magnitude F ->
  num_eqb (num_sum F) (Fin 0) = false ->
  has_value (num_sum (Transforms.normalise_spectrum F)) 1.
Proof.
  intros HF Hs. unfold Transforms.normalise_spectrum. cbv zeta.
  rewrite Hs.
  destruct (values_sum_fold F HF (Fin 0) 0%Q) as [s [Es Hsv]];
    [exists 0%Q; split; reflexivity|].
  fold (num_sum F) in Es. rewrite Es in *. cbn [num_eqb] in Hs.
  apply Qeq_bool_neq in Hs.
  destruct (values_sum_fold_div s F Hs HF (Fin 0) 0%Q) as [r [Er Hr]];
    [exists 0%Q; split; reflexivity|].
  exists r. split; [exact Er|]. rewrite Hr.
  assert (Hv : (values_sum F == s)%Q) by (rewrite Hsv; ring).
  rewrite Hv. field. exact Hs.
Qed.

Lemma normalised_spectrum_sums_to_one_witness :
  has_value (num_sum (Transforms.normalise_spectrum (nums [0; 2; 0; 2]))) 1.
Proof.
  apply (normalised_spectrum_sums_to_one (nums [0; 2; 0; 2])).
  - repeat constructor; eexists; (split; [reflexivity|]);
      unfold Qle; cbn; lia.
  - reflexivity.
Defined.

Lemma min_nf_positive (nf : list num) :
  nf <> [] -> Forall magnitude nf ->
  exists eps,
    Transforms.min_nf nf = Ok eps
    /\ magnitude eps /\ num_ltb (Fin 0) eps = true.
Proof.
  intros Hne HF.
  destruct (py_min_spec nf Hne HF) as [lo [Elo [Mlo [Ilo Hlo]]]].
  destruct (py_max_spec nf Hne HF) as [hi [Ehi [Mhi [Ihi Hhi]]]].
  unfold Transforms.min_nf. rewrite Elo, Ehi. cbn [rbind]. unfold num_neb.
  assert (One : magnitude (Fin 1) /\ num_ltb (Fin 0) (Fin 1) = true).
  { split; [|reflexivity]. exists 1%Q. split; [reflexivity|].
    unfold Qle. cbn. lia. }
  destruct (num_eqb lo hi); cbn [negb andb];
    [exists (Fin 1); split; [reflexivity|exact One]|].
  destruct (num_eqb lo (Fin 0)) eqn:Ez; cbn [negb];
    [exists (Fin 1); split; [reflexivity|exact One]|].
  set (pos := List.filter (fun m => num_ltb (Fin 0) m) nf).
  assert (Ipos : In lo pos).
  { apply filter_In. split; [exact Ilo|].
    apply magnitude_positive; assumption. }
  assert (Hpos : pos <> []) by (intros E; rewrite E in Ipos; exact Ipos).
  assert (Fpos : Forall magnitude pos).
  { apply List.Forall_forall. intros m Hm. apply filter_In in Hm.
    apply (proj1 (List.Forall_forall _ _) HF). apply Hm. }
  destruct (py_min_spec pos Hpos Fpos) as [eps [Ee [Me [Ie He]]]].
  exists eps. split; [exact Ee|]. split; [exact Me|].
  apply filter_In in Ie. apply Ie.
Qed.

(** X18: for a non-empty spectrum of finite magnitudes the epsilon chosen
    by [spec_entropy] is finite and strictly positive, so the argument
    [p + eps] of every logarithm is strictly positive: the logarithm of
    zero is never taken. *)
Theorem spec_entropy_never_takes_log_of_zero
    (fft_abs : list num -> result (list num)) (np_log : num -> num)
    (x F : list num) :
  fft_abs x = Ok F ->
  F <> [] ->
  Forall magnitude F ->
  exists eps,
    Transforms.spec_entropy fft_abs np_log x
    = Ok (entropy_sum np_log eps (Transforms.normalise_spectrum F))
    /\ num_ltb (Fin 0) eps = true
    /\ Forall (fun p => num_ltb (Fin 0) (num_add p eps) = true)
              (Transforms.normalise_spectrum F).
Proof.
  intros Hfft Hne HF.
  set (nf := Transforms.normalise_spectrum F).
  assert (Hnf : nf <> []).
  { subst nf. unfold Transforms.normalise_spectrum. cbv zeta.
    destruct F; [congruence|discriminate]. }
  pose proof (magnitude_normalise F HF) as Mnf. fold nf in Mnf.
  destruct (min_nf_positive nf Hnf Mnf) as [eps [E [[e [-> He]] Hp]]].
  exists (Fin e). split; [|split; [exact Hp|]].
  - unfold Transforms.spec_entropy. rewrite Hfft. cbn [rbind]. cbv zeta.
    fold nf. rewrite E. cbn [rbind]. rewrite zip_with_map_r. reflexivity.
  - apply List.Forall_forall. intros p Hin.
    destruct (proj1 (List.Forall_forall _ _) Mnf p Hin) as [q [-> Hq]].
    cbn in Hp |- *. unfold Qltb in *.
    destruct (Qle_bool e 0) eqn:Ee; [discriminate Hp|].
    apply Qle_bool_false in Ee.
    destruct (Qle_bool (Qred (q + e)) 0) eqn:Es; [|reflexivity].
    apply Qle_bool_iff in Es. rewrite Qred_correct in Es. lra.
Qed.

Lemma spec_entropy_never_takes_log_of_zero_witness :
  exists eps,
    Transforms.spec_entropy (fun _ => Ok (nums [0; 2; 0; 2])) (fun p => p)
                            (nums [1; 0; -1; 0])
    = Ok (entropy_sum (fun p => p) eps
            (Transforms.normalise_spectrum (nums [0; 2; 0; 2])))
    /\ num_ltb (Fin 0) eps = true
    /\ Forall (fun p => num_ltb (Fin 0) (num_add p eps) = true)
              (Transforms.normalise_spectrum (nums [0; 2; 0; 2])).
Proof.
  apply (spec_entropy_never_takes_log_of_zero
           (fun _ => Ok (nums [0; 2; 0; 2])) (fun p => p)
           (nums [1; 0; -1; 0]) (nums [0; 2; 0; 2])).
  - reflexivity.
  - discriminate.
  - repeat constructor; eexists; (split; [reflexivity|]);
      unfold Qle; cbn; lia.
Defined.

(** ** Speed: degenerate windows *)

Lemma speed_value (labels : list Z) (timestamps : list num)
    (adjacency : list (list num)) :
  length timestamps = length labels ->
  covers adjacency (np_unique labels) labels ->
  Metrics.speed labels timestamps adjacency
  = Ok (num_abs (np_nanmean (ratios adjacency labels timestamps))).
Proof.
  intros Hlen Hcov. unfold Metrics.speed. cbv zeta.
  destruct labels as [|a lrest].
  - destruct timestamps; [reflexivity|discriminate Hlen].
  - destruct timestamps as [|t trest]; [discriminate Hlen|].
    injection Hlen as Hlen.
    set (U := np_unique (a :: lrest)) in *.
    unfold py_range. cbn [length replicate].
    replace (S (length lrest) - 1)%nat with (length lrest) by lia.
    pose proof (speed_loop U adjacency lrest trest [] [] a t
                  [Fin 0] [Fin 0] Hlen eq_refl eq_refl eq_refl Hcov) as L.
    cbn [app length] in L. rewrite L. cbn [rbind fst snd app zip_with].
    rewrite zip_div_add0. unfold ratios. fold U.
    change (num_div (Fin 0) (Fin 0)) with NaN.
    rewrite np_nanmean_skip_nan. reflexivity.
Qed.

(** X19: on a window of fewer than two samples [speed] returns NaN,
    whatever the timestamps and the adjacency matrix: there is no pair of
    samples and the mean is taken over nothing. *)
Theorem speed_of_short_window_is_nan (labels : list Z)
    (timestamps : list num) (adjacency : list (list num)) :
  (length labels < 2)%nat ->
  Metrics.speed labels timestamps adjacency = Ok NaN.
Proof.
  intros Hlen. destruct labels as [|a [|b l]]; [reflexivity|reflexivity|].
  cbn in Hlen. lia.
Qed.

Lemma speed_of_short_window_is_nan_witness :
  Metrics.speed [7] (nums [3]) [[Fin 0]] = Ok NaN.
Proof.
  apply (speed_of_short_window_is_nan [7] (nums [3]) [[Fin 0]]). cbn. lia.
Defined.

Lemma zero_ratio (w g : num) :
  has_value w 0 ->
  (exists x, has_value g x /\ ~ (x == 0)%Q) ->
  num_div w g = Fin 0.
Proof.
  intros [w' [-> Hw]] [x [[g' [-> Hg]] Hx]]. unfold num_div.
  rewrite (Qis0_comp g' x Hg). unfold Qis0.
  destruct (Qeq_bool x 0) eqn:E; [apply Qeq_bool_iff in E; tauto|].
  unfold fin. f_equal. change 0%Q with (Qred 0). apply Qred_complete.
  rewrite Hw. unfold Qdiv. ring.
Qed.

Lemma nanmean_of_zeros (l : list num) :
  l <> [] -> Forall (fun r => r = Fin 0) l -> np_nanmean l = Fin 0.
Proof.
  intros Hne Hall.
  assert (El : l = replicate (length l) (Fin 0)).
  { clear Hne. induction Hall as [|r l -> _ IH]; [reflexivity|].
    cbn. f_equal. exact IH. }
  destruct (length l) as [|n] eqn:En.
  { destruct l; [congruence|discriminate En]. }
  rewrite El. clear El En Hne Hall.
  unfold np_nanmean. cbv zeta.
  assert (Hsum : forall k, num_sum (map (fun a => if num_isnan a then Fin 0
                                                   else a)
                                        (replicate k (Fin 0))) = Fin 0).
  { intros k. unfold num_sum. induction k as [|k IHk]; [reflexivity|].
    cbn [replicate map fold_left]. exact IHk. }
  rewrite Hsum.
  assert (Hlen : forall k, length (List.filter
                             (fun a => negb (num_isnan a))
                             (replicate k (Fin 0))) = k).
  { induction k as [|k IHk]; [reflexivity|]. cbn. f_equal. exact IHk. }
  rewrite Hlen. unfold num_div, num_of_nat, num_of_Z, Qis0.
  change (Qeq_bool (inject_Z (Z.of_nat (S n))) 0) with false. cbv iota.
  reflexivity.
Qed.

(** X20: with aligned, finite, pairwise different successive timestamps on
    a window of at least two samples, when every adjacency entry the code
    reads (the entry at the ranks of the previous and current labels among
    the sorted distinct labels of the window) is zero, [speed] returns
    exactly 0. *)
Theorem speed_with_zero_weights_is_zero (labels : list Z)
    (timestamps : list num) (adjacency : list (list num)) :
  (2 <= length labels)%nat ->
  length timestamps = length labels ->
  Forall (fun p => pair_weight adjacency (np_unique labels) (fst p) (snd p)
                   = Ok (Fin 0))
         (pairs labels) ->
  distinct_successive timestamps ->
  Metrics.speed labels timestamps adjacency = Ok (Fin 0).
Proof.
  intros Hn Hlen Hw Hts.
  assert (Hcov : covers adjacency (np_unique labels) labels).
  { unfold covers. eapply List.Forall_impl; [|exact Hw].
    intros p Hp. exists (Fin 0). exact Hp. }
  rewrite (speed_value labels timestamps adjacency Hlen Hcov).
  assert (Hr : Forall (fun r => r = Fin 0)
                      (ratios adjacency labels timestamps)).
  { unfold ratios. unfold distinct_successive in Hts.
    revert Hw Hts. generalize (pairs labels) (pairs timestamps).
    intros lp. induction lp as [|p lp IH]; intros tp Hw Hts;
      [constructor|].
    destruct tp as [|q tp]; [constructor|].
    inversion Hw as [|? ? Hp Hw']; subst.
    inversion Hts as [|? ? [x [y [Ex [Ey Hxy]]]] Hts']; subst.
    cbn [map zip_with]. constructor; [|apply IH; assumption].
    apply zero_ratio.
    - unfold weight_of. rewrite Hp. exists 0%Q. split; reflexivity.
    - exists (x - y)%Q. split.
      + unfold gap_of. rewrite Ex, Ey. apply has_value_sub;
          eexists; split; reflexivity.
      + intros E. apply Hxy. lra. }
  rewrite nanmean_of_zeros; [reflexivity| |exact Hr].
  unfold ratios. intros E.
  apply (f_equal (@length num)) in E. rewrite length_zip_with in E.
  rewrite !length_map, !pairs_length, Hlen in E. cbn in E. lia.
Qed.

Lemma speed_with_zero_weights_is_zero_witness :
  Metrics.speed [0; 1; 0] (nums [0; 1; 3]) [[Fin 0; Fin 0]; [Fin 0; Fin 0]]
  = Ok (Fin 0).
Proof.
  apply (speed_with_zero_weights_is_zero [0; 1; 0] (nums [0; 1; 3])
           [[Fin 0; Fin 0]; [Fin 0; Fin 0]]).
  - cbn. lia.
  - reflexivity.
  - repeat constructor.
  - repeat constructor; cbn [fst snd]; eexists _, _;
      (split; [reflexivity|]); (split; [reflexivity|]);
      unfold Qeq; cbn; lia.
Defined.

(** ** Average time between labels: what the code computes *)

(** X21: with aligned timestamps of which at least one successive delta is
    below 100, entry number [i] of the result is the average gap of the
    label carried by sample number [i] (not of the [i]-th distinct label),
    for the first [k] samples, [k] being the number of distinct labels;
    the nominal interval used by [normalise] is the sum of the small deltas
    over the number of timestamps. *)
Theorem average_time_entries_follow_samples (labels : list Z)
    (timestamps : list num) (normalise : bool) :
  length timestamps = length labels ->
  small_deltas timestamps <> [] ->
  Metrics.average_time_between_labels labels timestamps normalise
  = Ok (map (label_average labels timestamps normalise
               (num_div (Fin 1) (reciprocal_mean_delta timestamps)))
            (take (length (np_unique labels)) labels)).
Proof. exact (average_time_follows_sample_order labels timestamps normalise). Qed.

Lemma average_time_entries_follow_samples_witness :
  Metrics.average_time_between_labels [0; 1; 0; 1; 1]
    (nums [0; 10; 20; 40; 50]) true
  = Ok (map (label_average [0; 1; 0; 1; 1] (nums [0; 10; 20; 40; 50]) true
               (num_div (Fin 1)
                  (reciprocal_mean_delta (nums [0; 10; 20; 40; 50]))))
            (take (length (np_unique [0; 1; 0; 1; 1])) [0; 1; 0; 1; 1])).
Proof.
  apply (average_time_entries_follow_samples [0; 1; 0; 1; 1]
           (nums [0; 10; 20; 40; 50]) true).
  - reflexivity.
  - vm_compute. discriminate.
Defined.

(** X22: when no successive timestamp delta is below 100 (in particular on
    fewer than two timestamps) [average_time_between_labels] raises
    [ZeroDivisionError], whatever the labels. *)
Theorem average_time_raises_without_small_delta (labels : list Z)
    (timestamps : list num) (normalise : bool) :
  small_deltas timestamps = [] ->
  Metrics.average_time_between_labels labels timestamps normalise
  = Raise ZeroDivisionError.
Proof.
  intros E. unfold Metrics.average_time_between_labels. cbv zeta.
  rewrite (estimator_raises_of_no_small_delta timestamps E). reflexivity.
Qed.

Lemma average_time_raises_without_small_delta_witness :
  Metrics.average_time_between_labels [4] (nums [12]) true
  = Raise ZeroDivisionError.
Proof.
  apply (average_time_raises_without_small_delta [4] (nums [12]) true).
  reflexivity.
Defined.

(** X23: when the first [k] samples carry the [k] distinct labels of the
    sequence in increasing order, [average_time_between_labels] returns
    the documented table: for each distinct label the average of the gaps
    between its occurrences, 0 when no gap is left. *)
Theorem average_time_right_when_labels_start_sorted (labels : list Z)
    (timestamps : list num) (normalise : bool) :
  length timestamps = length labels ->
  small_deltas timestamps <> [] ->
  take (length (np_unique labels)) labels = np_unique labels ->
  Metrics.average_time_between_labels labels timestamps normalise
  = Ok (averages_per_distinct_label labels timestamps normalise).
Proof.
  intros Hlen Hs Hsorted.
  rewrite (average_time_follows_sample_order labels timestamps normalise
             Hlen Hs), Hsorted.
  reflexivity.
Qed.

Lemma average_time_right_when_labels_start_sorted_witness :
  Metrics.average_time_between_labels [0; 1; 0; 1; 1]
    (nums [0; 10; 20; 40; 50]) true
  = Ok (averages_per_distinct_label [0; 1; 0; 1; 1]
          (nums [0; 10; 20; 40; 50]) true).
Proof.
  apply (average_time_right_when_labels_start_sorted [0; 1; 0; 1; 1]
           (nums [0; 10; 20; 40; 50]) true).
  - reflexivity.
  - vm_compute. discriminate.
  - reflexivity.
Defined.

(** ** Speed: shape errors *)

Lemma for_loop_ok_inv {S} (body : nat -> S -> result S) (idxs : list nat) :
  forall s s', for_loop idxs body s = Ok s' ->
    forall i, In i idxs -> exists s1 s2, body i s1 = Ok s2.
Proof.
  induction idxs as [|j idxs IH]; intros s s' H i Hi; [destruct Hi|].
  cbn [for_loop] in H. destruct (body j s) as [s1|e] eqn:E;
    cbn [rbind] in H; [|discriminate H].
  destruct Hi as [<-|Hi]; [exists s, s1; exact E|].
  apply (IH s1 s' H i Hi).
Qed.

Lemma for_loop_raise_inv {S} (body : nat -> S -> result S)
    (idxs : list nat) :
  forall s e, for_loop idxs body s = Raise e ->
    exists i s1, In i idxs /\ body i s1 = Raise e.
Proof.
  induction idxs as [|j idxs IH]; intros s e H; [discriminate H|].
  cbn [for_loop] in H. destruct (body j s) as [s1|e1] eqn:E;
    cbn [rbind] in H.
  - destruct (IH s1 e H) as [i [s2 [Hi Hb]]]. exists i, s2.
    split; [right; exact Hi|exact Hb].
  - injection H as <-. exists j, s. split; [left; reflexivity|exact E].
Qed.

Lemma of_option_raise {A} (o : option A) (e e' : exn) :
  of_option e o = Raise e' -> e' = e.
Proof. destruct o; [discriminate|]. intros [= <-]. reflexivity. Qed.

Lemma get2_raise (adjacency : list (list num)) (i j : nat) (e : exn) :
  Metrics.get2 adjacency i j = Raise e -> e = IndexError.
Proof.
  unfold Metrics.get2, get. destruct (adjacency !! i) as [row|];
    cbn [of_option rbind]; [apply of_option_raise|].
  intros [= <-]. reflexivity.
Qed.

(** What a successful iteration of the loop of [speed] has read, and the
    only exception an iteration raises. *)
Lemma speed_step_inv (U labels : list Z) (adjacency : list (list num))
    (timestamps : list num) (idx : nat) (st : list num * list num) :
  (forall st', Metrics.speed_step U labels adjacency timestamps idx st
               = Ok st' ->
     exists prev cur w t1 t0,
       get labels (idx - 1) = Ok prev /\ get labels idx = Ok cur
       /\ pair_weight adjacency U prev cur = Ok w
       /\ get timestamps (idx - 1) = Ok t1 /\ get timestamps idx = Ok t0)
  /\ (forall e, Metrics.speed_step U labels adjacency timestamps idx st
                = Raise e -> e = IndexError).
Proof.
  unfold Metrics.speed_step, pair_weight. destruct st as [c m].
  destruct (get labels (idx - 1)) as [prev|e0] eqn:E1; cbn [rbind];
    [|split; [discriminate|intros e [= <-]; apply (of_option_raise _ _ _ E1)]].
  destruct (where0 U prev) as [i|e0] eqn:E2; cbn [rbind];
    [|split; [discriminate|intros e [= <-]; apply (of_option_raise _ _ _ E2)]].
  destruct (get labels idx) as [cur|e0] eqn:E3; cbn [rbind];
    [|split; [discriminate|intros e [= <-]; apply (of_option_raise _ _ _ E3)]].
  destruct (where0 U cur) as [j|e0] eqn:E4; cbn [rbind];
    [|split; [discriminate|intros e [= <-]; apply (of_option_raise _ _ _ E4)]].
  destruct (Metrics.get2 adjacency i j) as [w|e0] eqn:E5; cbn [rbind];
    [|split; [discriminate|intros e [= <-]; apply (get2_raise _ _ _ _ E5)]].
  destruct (get c idx) as [old|e0] eqn:E6; cbn [rbind];
    [|split; [discriminate|intros e [= <-]; apply (of_option_raise _ _ _ E6)]].
  destruct (get timestamps (idx - 1)) as [t1|e0] eqn:E7; cbn [rbind];
    [|split; [discriminate|intros e [= <-]; apply (of_option_raise _ _ _ E7)]].
  destruct (get timestamps idx) as [t0|e0] eqn:E8; cbn [rbind];
    [|split; [discriminate|intros e [= <-]; apply (of_option_raise _ _ _ E8)]].
  destruct (get m idx) as [old'|e0] eqn:E9; cbn [rbind];
    [|split; [discriminate|intros e [= <-]; apply (of_option_raise _ _ _ E9)]].
  split; [|discriminate].
  intros st' _. exists prev, cur, w, t1, t0.
  rewrite E2. cbn [rbind]. rewrite E4. cbn [rbind]. auto.
Qed.

Lemma speed_result (labels : list Z) (timestamps : list num)
    (adjacency : list (list num)) :
  (forall v, Metrics.speed labels timestamps adjacency = Ok v ->
     forall idx, (1 <= idx < length labels)%nat ->
       exists prev cur w t1 t0,
         get labels (idx - 1) = Ok prev /\ get labels idx = Ok cur
         /\ pair_weight adjacency (np_unique labels) prev cur = Ok w
         /\ get timestamps (idx - 1) = Ok t1 /\ get timestamps idx = Ok t0)
  /\ (forall e, Metrics.speed labels timestamps adjacency = Raise e ->
                e = IndexError).
Proof.
  unfold Metrics.speed. cbv zeta.
  destruct (for_loop _ _ _) as [st|e0] eqn:E; cbn [rbind].
  - split; [|discriminate]. intros v _ idx Hidx.
    destruct (for_loop_ok_inv _ _ _ _ E idx) as [s1 [s2 Hb]].
    { unfold py_range. apply in_seq. lia. }
    apply (proj1 (speed_step_inv _ _ _ _ _ _) s2 Hb).
  - split; [discriminate|]. intros e [= <-].
    destruct (for_loop_raise_inv _ _ _ _ E) as [i [s1 [_ Hb]]].
    apply (proj2 (speed_step_inv _ _ _ _ _ _) e0 Hb).
Qed.

Lemma get_ok_bound {A} (l : list A) (i : nat) (a : A) :
  get l i = Ok a -> (i < length l)%nat.
Proof.
  unfold get. destruct (l !! i) eqn:E; [|discriminate].
  intros _. apply lookup_lt_Some in E. exact E.
Qed.

(** X24: on a window of at least two samples whose timestamps are fewer
    than the labels, [speed] raises [IndexError], whatever the adjacency
    matrix; and [IndexError] is the only exception [speed] ever raises. *)
Theorem speed_raises_on_missing_timestamps (labels : list Z)
    (timestamps : list num) (adjacency : list (list num)) :
  (2 <= length labels)%nat ->
  (length timestamps < length labels)%nat ->
  Metrics.speed labels timestamps adjacency = Raise IndexError
  /\ forall l t a e, Metrics.speed l t a = Raise e -> e = IndexError.
Proof.
  intros Hn Hlen. split.
  - destruct (speed_result labels timestamps adjacency) as [Hok Hraise].
    destruct (Metrics.speed labels timestamps adjacency) as [v|e] eqn:E.
    + exfalso.
      destruct (Hok v eq_refl (Nat.max 1 (length timestamps)))
        as [_ [_ [_ [t1 [t0 [_ [_ [_ [G1 G0]]]]]]]]]; [lia|].
      apply get_ok_bound in G1, G0. lia.
    + rewrite (Hraise e eq_refl). reflexivity.
  - intros l t a e. apply (proj2 (speed_result l t a)).
Qed.

Lemma speed_raises_on_missing_timestamps_witness :
  Metrics.speed [0; 1; 0] (nums [0; 1]) [[Fin 0; Fin 1]; [Fin 1; Fin 0]]
  = Raise IndexError
  /\ forall l t a e, Metrics.speed l t a = Raise e -> e = IndexError.
Proof.
  apply (speed_raises_on_missing_timestamps [0; 1; 0] (nums [0; 1])
           [[Fin 0; Fin 1]; [Fin 1; Fin 0]]); cbn; lia.
Defined.

Lemma pairs_lookup {A} (l : list A) (p : A * A) :
  In p (pairs l) ->
  exists idx, (1 <= idx < length l)%nat
              /\ get l (idx - 1) = Ok (fst p) /\ get l idx = Ok (snd p).
Proof.
  induction l as [|a [|b l] IH]; [intros []|intros []|].
  change (pairs (a :: b :: l)) with ((a, b) :: pairs (b :: l)).
  intros [<-|H].
  - exists 1%nat. cbn. repeat split; lia.
  - destruct (IH H) as [idx [Hi [G1 G2]]]. exists (S idx).
    split; [cbn [length] in *; lia|].
    replace (S idx - 1)%nat with (S (idx - 1)) by lia.
    split; [exact G1|exact G2].
Qed.

(** X25: when the adjacency matrix has no entry for some observed pair of
    successive labels (it is smaller than the number of distinct labels of
    the window), [speed] raises [IndexError]. *)
Theorem speed_raises_on_uncovered_pair (labels : list Z)
    (timestamps : list num) (adjacency : list (list num)) (p : Z * Z)
    (e : exn) :
  In p (pairs labels) ->
  pair_weight adjacency (np_unique labels) (fst p) (snd p) = Raise e ->
  Metrics.speed labels timestamps adjacency = Raise IndexError.
Proof.
  intros Hp Hw.
  destruct (speed_result labels timestamps adjacency) as [Hok Hraise].
  destruct (Metrics.speed labels timestamps adjacency) as [v|e'] eqn:E.
  - exfalso. destruct (pairs_lookup labels p Hp) as [idx [Hi [G1 G2]]].
    destruct (Hok v eq_refl idx Hi)
      as [prev [cur [w [_ [_ [G1' [G2' [Hw' _]]]]]]]].
    rewrite G1 in G1'. rewrite G2 in G2'.
    injection G1' as <-. injection G2' as <-.
    rewrite Hw in Hw'. discriminate Hw'.
  - rewrite (Hraise e' eq_refl). reflexivity.
Qed.

Lemma speed_raises_on_uncovered_pair_witness :
  Metrics.speed [0; 1; 0] (nums [0; 1; 2]) [[Fin 0]] = Raise IndexError.
Proof.
  apply (speed_raises_on_uncovered_pair [0; 1; 0] (nums [0; 1; 2])
           [[Fin 0]] (0, 1) IndexError).
  - left. reflexivity.
  - reflexivity.
Defined.

(** ** Spectral energy *)

Lemma squares_sum (l : list num) :
  Forall magnitude l ->
  forall (acc : num) (a : Q),
    has_value acc a -> (0 <= a)%Q ->
    exists q, fold_left num_add (map (fun m => num_mul m m) l) acc = Fin q
              /\ (a <= q)%Q
              /\ ((q == 0)%Q ->
                  (a == 0)%Q /\ Forall (fun m => has_value m 0) l).
Proof.
  induction 1 as [|m l [x [-> Hx]] _ IH]; intros acc a Ha Ha0.
  - destruct Ha as [a' [-> Ha]]. exists a'.
    split; [reflexivity|]. split; [lra|].
    intros E. split; [lra|constructor].
  - cbn [map fold_left].
    assert (Hm : has_value (num_mul (Fin x) (Fin x)) (x * x))
      by (eexists; split; [reflexivity|apply Qred_correct]).
    assert (Hxx : (0 <= x * x)%Q) by (apply Qmult_le_0_compat; exact Hx).
    destruct (IH _ _ (has_value_add _ _ _ _ Ha Hm)) as [q [E [Hq Hz]]];
      [lra|].
    exists q. split; [exact E|]. split; [lra|].
    intros E0. destruct (Hz E0) as [Hs Hl].
    assert (Hx0 : (x == 0)%Q).
    { assert (Hxx0 : (x * x == 0)%Q) by lra.
      apply Qmult_integral in Hxx0. tauto. }
    split; [lra|]. constructor; [|exact Hl].
    exists x. split; [reflexivity|exact Hx0].
Qed.

Lemma zero_squares_sum (l : list num) :
  Forall (fun m => has_value m 0) l ->
  forall acc : num,
    has_value acc 0 ->
    has_value (fold_left num_add (map (fun m => num_mul m m) l) acc) 0.
Proof.
  induction 1 as [|m l Hm _ IH]; intros acc Ha; [exact Ha|].
  cbn [map fold_left]. apply IH.
  destruct (has_value_add _ _ _ _ Ha (has_value_mul _ _ _ _ Hm Hm))
    as [q [E Hq]].
  exists q. split; [exact E|]. rewrite Hq. ring.
Qed.

(** X26: for finite FFT magnitudes [spec_energy] returns a value that is
    neither negative nor NaN, and it returns 0 when every magnitude is
    zero. *)
Theorem spec_energy_nonnegative
    (fft_abs : list num -> result (list num)) (x F : list num) :
  fft_abs x = Ok F ->
  Forall magnitude F ->
  exists r,
    Transforms.spec_energy fft_abs x = Ok r
    /\ num_leb (Fin 0) r = true
    /\ (Forall (fun m => has_value m 0) F -> has_value r 0).
Proof.
  intros Hfft HF. unfold Transforms.spec_energy. rewrite Hfft. cbn [rbind].
  destruct (squares_sum F HF (Fin 0) 0%Q) as [q [E [Hq _]]];
    [exists 0%Q; split; reflexivity|lra|].
  eexists. split; [reflexivity|]. split.
  - unfold num_sum. rewrite E. cbn [num_leb]. apply Qle_bool_iff. exact Hq.
  - intros Hz. apply (zero_squares_sum F Hz (Fin 0)).
    exists 0%Q. split; reflexivity.
Qed.

Lemma spec_energy_nonnegative_witness :
  exists r,
    Transforms.spec_energy (fun _ => Ok (nums [0; 2; 0; 2]))
                           (nums [1; 0; -1; 0]) = Ok r
    /\ num_leb (Fin 0) r = true
    /\ (Forall (fun m => has_value m 0) (nums [0; 2; 0; 2])
        -> has_value r 0).
Proof.
  apply (spec_energy_nonnegative (fun _ => Ok (nums [0; 2; 0; 2]))
           (nums [1; 0; -1; 0]) (nums [0; 2; 0; 2])).
  - reflexivity.
  - repeat constructor; eexists; (split; [reflexivity|]);
      unfold Qle; cbn; lia.
Defined.

(** ** Speed: the adjacency matrix indexed by the labels *)

Lemma first_index_iota (k : nat) :
  forall s i : nat,
    (i < k)%nat ->
    first_index (Z.of_nat (s + i)) (map Z.of_nat (seq s k)) = Some i.
Proof.
  induction k as [|k IH]; intros s i Hi; [lia|].
  cbn [seq map first_index]. destruct i as [|i].
  - rewrite Nat.add_0_r, Z.eqb_refl. reflexivity.
  - destruct (Z.eqb_spec (Z.of_nat s) (Z.of_nat (s + S i))) as [E|_];
      [lia|].
    replace (s + S i)%nat with (S s + i)%nat by lia.
    rewrite (IH (S s) i) by lia. reflexivity.
Qed.

(** On a window whose distinct labels are [0 .. k-1] the entry read by
    line 92 for a pair of labels of the window is the entry at the labels
    themselves. *)
Lemma pair_weight_dense (adjacency : list (list num)) (labels : list Z)
    (a b : Z) :
  dense_labels labels -> In a labels -> In b labels ->
  pair_weight adjacency (np_unique labels) a b
  = of_option IndexError (label_entry adjacency a b).
Proof.
  intros Hd Ha Hb. unfold dense_labels in Hd.
  assert (Hrank : forall z, In z labels ->
            0 <= z /\ where0 (np_unique labels) z = Ok (Z.to_nat z)).
  { intros z Hz. apply np_unique_In in Hz. rewrite Hd in Hz |- *.
    apply in_map_iff in Hz. destruct Hz as [i [<- Hi]].
    apply in_seq in Hi. split; [lia|].
    unfold where0. rewrite Nat2Z.id.
    rewrite (first_index_iota _ 0 i) by lia. reflexivity. }
  destruct (Hrank a Ha) as [Ha0 Ea]. destruct (Hrank b Hb) as [Hb0 Eb].
  unfold pair_weight, label_entry. rewrite Ea, Eb. cbn [rbind].
  destruct (Z.leb_spec 0 a); [|lia]. destruct (Z.leb_spec 0 b); [|lia].
  cbn [andb]. unfold Metrics.get2, get.
  destruct (adjacency !! Z.to_nat a); reflexivity.
Qed.

(** C1, as stated, fails.  With labels [[0, 1, 0]], adjacency
    [[[0, 1], [1, 0]]] and timestamps [[0, 0, 1]] the ratios are
    [1/0 = inf] and [1/(0-1) = -1]; [np.nanmean] keeps the infinity and the
    result is [inf], not [1].  With the timestamps [[0, 1, 0]] the ratios
    are [-1] and [1], their mean is [0] and so is its absolute value, not
    [1].  With labels [[1, 2]], timestamps [[0, 1]] and a 3x3 matrix over
    the labels 0, 1, 2, line 92 reads the entry at the ranks of the labels
    among the distinct labels of the window, [adjacency[0, 1] = 1], not the
    entry of the pair, [adjacency[1, 2] = 4]: the result is [1], not
    [4]. *)
Lemma speed_is_not_mean_abs_finite :
  ~ speed_is_mean_abs_finite [0; 1; 0] (nums [0; 0; 1])
      [[Fin 0; Fin 1]; [Fin 1; Fin 0]]
  /\ ~ speed_is_mean_abs_finite [0; 1; 0] (nums [0; 1; 0])
         [[Fin 0; Fin 1]; [Fin 1; Fin 0]]
  /\ ~ speed_is_mean_abs_finite [1; 2] (nums [0; 1])
         [[Fin 0; Fin 1; Fin 2]; [Fin 1; Fin 0; Fin 4];
          [Fin 2; Fin 4; Fin 0]].
Proof.
  repeat split; intros H; assert (E := H eq_refl); clear H.
  - assert (Hc : covers_labels [[Fin 0; Fin 1]; [Fin 1; Fin 0]] [0; 1; 0])
      by (repeat constructor; eexists; vm_compute; reflexivity).
    specialize (E Hc). vm_compute in E. discriminate E.
  - assert (Hc : covers_labels [[Fin 0; Fin 1]; [Fin 1; Fin 0]] [0; 1; 0])
      by (repeat constructor; eexists; vm_compute; reflexivity).
    specialize (E Hc). vm_compute in E. discriminate E.
  - assert (Hc : covers_labels
                   [[Fin 0; Fin 1; Fin 2]; [Fin 1; Fin 0; Fin 4];
                    [Fin 2; Fin 4; Fin 0]] [1; 2])
      by (repeat constructor; eexists; vm_compute; reflexivity).
    specialize (E Hc). vm_compute in E. discriminate E.
Qed.

(** C1 (amended): for every window whose distinct labels are exactly
    [0, 1, ..., k-1], with aligned timestamps and an adjacency matrix
    holding an entry [adjacency[prev][cur]] for every observed pair of
    labels, [speed] computes, for each consecutive pair of samples, the
    adjacency weight of the (previous-label, current-label) pair divided by
    the previous timestamp minus the current one, and returns the absolute
    value of the average of these ratios, ignoring the NaN ratios only. *)
Theorem speed_abs_of_nanmean (labels : list Z) (timestamps : list num)
    (adjacency : list (list num)) :
  dense_labels labels ->
  length timestamps = length labels ->
  covers_labels adjacency labels ->
  Metrics.speed labels timestamps adjacency
  = Ok (num_abs (np_nanmean (label_ratios adjacency labels timestamps))).
Proof.
  intros Hd Hlen Hcov.
  assert (Hw : forall p, In p (pairs labels) ->
            pair_weight adjacency (np_unique labels) (fst p) (snd p)
            = of_option IndexError (label_entry adjacency (fst p) (snd p))).
  { intros p Hp. destruct (pairs_In labels p Hp) as [Ha Hb].
    apply pair_weight_dense; assumption. }
  assert (Hrank : covers adjacency (np_unique labels) labels).
  { unfold covers. apply List.Forall_forall. intros p Hp.
    destruct (proj1 (List.Forall_forall _ _) Hcov p Hp) as [w Ew].
    exists w. rewrite (Hw p Hp), Ew. reflexivity. }
  rewrite (speed_value labels timestamps adjacency Hlen Hrank).
  do 3 f_equal. unfold ratios, label_ratios. f_equal.
  apply map_ext_in. intros p Hp. unfold weight_of, label_weight.
  rewrite (Hw p Hp). destruct (label_entry adjacency (fst p) (snd p));
    reflexivity.
Qed.

Lemma speed_abs_of_nanmean_witness :
  Metrics.speed [0; 1; 0] (nums [0; 1; 3]) [[Fin 0; Fin 1]; [Fin 1; Fin 0]]
  = Ok (num_abs (np_nanmean
                   (label_ratios [[Fin 0; Fin 1]; [Fin 1; Fin 0]] [0; 1; 0]
                                 (nums [0; 1; 3])))).
Proof.
  apply (speed_abs_of_nanmean [0; 1; 0] (nums [0; 1; 3])
           [[Fin 0; Fin 1]; [Fin 1; Fin 0]]).
  - reflexivity.
  - reflexivity.
  - repeat constructor; eexists; vm_compute; reflexivity.
Defined.
